(** * Pointer tracking and edge scrolling: a model of [js/boilerplate/mouse.js]

    The development embeds the pointer tracker ([Mouse.coords], [trackmove],
    the hover handlers, [App.isHovered]) and the edge scroller
    ([Mouse.Scroll]: [translate], [enable], [disable], [_update], the easing
    table) as functions over an explicit page state, and states the
    properties of the module over that embedding.

    JavaScript numbers are idealised as real numbers: every arithmetic
    operation of the source is the exact operation on [R], so that the
    cosine and the square root of the easing table are the functions of the
    standard library.  [Math.round] is rounding to the nearest integer with
    ties towards +infinity, that is [floor (x + 1/2)].  Comparisons are
    decided by [Rlt_dec] and its kin; the example pages below are therefore
    evaluated by lemmas, and were chosen so that double-precision
    arithmetic yields the same values.

    Two things the idealisation does not follow.  A band of width 0
    ([canvas size * THRESHOLD = 0]) makes the quotient handed to the easing
    function an infinity or a NaN in the code; such values are not numbers
    of this model, and the properties that depend on the value of a shift
    assume bands of non-zero width or a pointer on the canvas, which
    excludes them, or are values at given inputs with bands of width 200
    and 160.  And [Math.round] is applied here to the exact product
    of gradient and distance, where the code rounds the product to a double
    first; the two can differ by one pixel when the exact product is within
    an ulp of a half.  The statements about a shift are therefore bounds
    and ranges that hold for both, or values at inputs where the double
    product is exact.

    Variables keep the names of the source.  A [var] of a closure is a field
    of the page state; the [mousedown] variable of [Mouse.Scroll.enable] is
    local to each call of that function and lives in [cells]. *)

From Stdlib Require Import Reals Lra Lia ZArith List String Bool.
Import ListNotations.
Local Open Scope R_scope.

(** ** JavaScript values and operators *)

Module JS.

(** [a < b], [a > b], [a >= b] and [a !== b] on numbers, as booleans. *)
Definition lt (a b : R) : bool := if Rlt_dec a b then true else false.
Definition gt (a b : R) : bool := lt b a.
Definition ge (a b : R) : bool := if Rle_dec b a then true else false.
Definition strict_ne (a b : R) : bool := if Req_dec_T a b then false else true.

(** A property that is either a number or [undefined]. *)
Definition number_or_undefined := option R.

(** Truthiness of such a property: [undefined] and [0] are falsy. *)
Definition truthy (v : number_or_undefined) : bool :=
  match v with
  | Some r => strict_ne r 0
  | None => false
  end.

(** Errors raised by the language itself. *)
Inductive Error : Type :=
| TypeError (what : string)
| ReferenceError (name : string).

(** How the evaluation of a function body ends. *)
Inductive completion (A : Type) : Type :=
| Normal (a : A)
| Throw (ex : Error).
Arguments Normal {A} a.
Arguments Throw {A} ex.

Definition bind {A B : Type} (c : completion A) (k : A -> completion B)
  : completion B :=
  match c with
  | Normal a => k a
  | Throw ex => Throw ex
  end.

(** [try { body } catch (ex) { handler ex }] *)
Definition try_catch {A : Type} (body : completion A) (handler : Error -> A)
  : completion A :=
  match body with
  | Normal a => Normal a
  | Throw ex => Normal (handler ex)
  end.

Definition string_of_error (ex : Error) : string :=
  match ex with
  | TypeError what => ("TypeError: " ++ what)%string
  | ReferenceError name => ("ReferenceError: " ++ name ++ " is not defined")%string
  end.

End JS.

Notation "x <- c ;; k" := (JS.bind c (fun x => k))
  (at level 61, c at next level, right associativity).

Module Math.

(** [Math.round]: nearest integer, halves rounded up. *)
Definition round (v : R) : R := IZR (Int_part (v + / 2)).
Definition min (a b : R) : R := Rmin a b.
Definition cos (v : R) : R := Rtrigo_def.cos v.
Definition sqrt (v : R) : R := R_sqrt.sqrt v.
Definition PI : R := Rtrigo1.PI.

End Math.

(** ** Data *)

(** [{x, y}] pairs: [Mouse.coords], [scrolled], the result of
    [world.getOffsets()]. *)
Module Point.
Record t : Type := mk { x : R; y : R }.
End Point.

(** Objects that can be hit-tested: anything with [x], [y], [width] and
    [height] (every [Box] has them). *)
Module Box.
Record t : Type := mk { x : R; y : R; width : R; height : R }.
End Box.

(** The external [world] object, as far as this file uses it. *)
Module World.
Record t : Type := mk { xOffset : R; yOffset : R; width : R; height : R }.

(** Modelled from the spec: [world.getOffsets()] is defined outside this
    file; it exposes the current viewport offsets [xOffset] and [yOffset]
    as a pair [{x, y}]. *)
Definition getOffsets (w : t) : Point.t := Point.mk (xOffset w) (yOffset w).
End World.

(** The canvas element: its pixel size and [$canvas.offset()]. *)
Module Canvas.
Record t : Type := mk { width : R; height : R; left : R; top : R }.
End Canvas.

(** A touch point and the part of a (jQuery) event object that the handlers
    read.  A missing property is [None]. *)
Record Touch : Type := mkTouch { touch_pageX : R; touch_pageY : R }.

Record OriginalEvent : Type := mkOriginalEvent {
  touches : option (list Touch)
}.

Record DomEvent : Type := mkDomEvent {
  type : string;
  pageX : JS.number_or_undefined;
  pageY : JS.number_or_undefined;
  originalEvent : option OriginalEvent
}.

(** The functions bound to the canvas by this file. *)
Inductive Handler : Type :=
| h_trackmove                 (* [trackmove] *)
| h_hover_in                  (* first argument of [$canvas.hover] *)
| h_hover_out                 (* second argument of [$canvas.hover] *)
| h_delegate                  (* 'mousedown mouseup click touchstart touchend' *)
| h_dragstop                  (* 'mouseup.drag touchend.drag' *)
| h_first_move                (* [one('mousemove.translate')] *)
| h_enter                     (* 'mouseenter.translate touchstart.translate' *)
| h_leave                     (* 'mouseleave.translate touchleave.translate' *)
| h_press (cell : nat)        (* 'mousedown.translate touchstart.translate' *)
| h_release (cell : nat).     (* 'mouseup.translate touchend.translate' *)

(** One handler bound to one event type under one namespace. *)
Record Binding : Type := mkBinding {
  b_type : string;
  b_namespace : string;
  b_once : bool;
  b_handler : Handler
}.

(** The private variables of the [Mouse.Scroll] closure. *)
Record ScrollVars : Type := mkScrollVars {
  THRESHOLD : R;
  MOVEAMOUNT : R;
  enabled : bool;
  hovered : bool;
  translating : bool;
  scrolled : Point.t;
  easing : R -> R
}.

(** Everything the file reads or writes. *)
Record Page : Type := mkPage {
  coords : Point.t;                    (* [Mouse.coords] *)
  world : World.t;
  canvas : Canvas.t;
  context : list (R * R);              (* calls of [context.translate], latest first *)
  physicsDelta : R;                    (* [App.physicsDelta] *)
  vars : ScrollVars;
  bindings : list Binding;             (* handlers bound on [$canvas], oldest first *)
  cells : list bool;                   (* the [mousedown] variable of each call of [enable] *)
  global_mousedown : option bool;      (* truthiness of a global named [mousedown], if one is defined *)
  document_events : list string;       (* [jQuery(document).trigger], latest first *)
  console : option (list string);      (* [console.error] output when a console exists *)
  prevented : nat;                     (* calls of [e.preventDefault()] *)
  isSomethingBeingDragged : bool;      (* [App.isSomethingBeingDragged] *)
  isAnimating : bool;
  app_events : option (list string)    (* [App.Events.trigger] when [App.Events] is defined *)
}.

(** *** Updates of single components *)

Definition set_coords (c : Point.t) (s : Page) : Page :=
  mkPage c (world s) (canvas s) (context s) (physicsDelta s) (vars s)
    (bindings s) (cells s) (global_mousedown s) (document_events s) (console s)
    (prevented s) (isSomethingBeingDragged s) (isAnimating s) (app_events s).

Definition set_world (w : World.t) (s : Page) : Page :=
  mkPage (coords s) w (canvas s) (context s) (physicsDelta s) (vars s)
    (bindings s) (cells s) (global_mousedown s) (document_events s) (console s)
    (prevented s) (isSomethingBeingDragged s) (isAnimating s) (app_events s).

Definition set_context (c : list (R * R)) (s : Page) : Page :=
  mkPage (coords s) (world s) (canvas s) c (physicsDelta s) (vars s)
    (bindings s) (cells s) (global_mousedown s) (document_events s) (console s)
    (prevented s) (isSomethingBeingDragged s) (isAnimating s) (app_events s).

Definition set_vars (v : ScrollVars) (s : Page) : Page :=
  mkPage (coords s) (world s) (canvas s) (context s) (physicsDelta s) v
    (bindings s) (cells s) (global_mousedown s) (document_events s) (console s)
    (prevented s) (isSomethingBeingDragged s) (isAnimating s) (app_events s).

Definition set_bindings (b : list Binding) (s : Page) : Page :=
  mkPage (coords s) (world s) (canvas s) (context s) (physicsDelta s) (vars s)
    b (cells s) (global_mousedown s) (document_events s) (console s)
    (prevented s) (isSomethingBeingDragged s) (isAnimating s) (app_events s).

Definition set_cells (c : list bool) (s : Page) : Page :=
  mkPage (coords s) (world s) (canvas s) (context s) (physicsDelta s) (vars s)
    (bindings s) c (global_mousedown s) (document_events s) (console s)
    (prevented s) (isSomethingBeingDragged s) (isAnimating s) (app_events s).

Definition set_document_events (d : list string) (s : Page) : Page :=
  mkPage (coords s) (world s) (canvas s) (context s) (physicsDelta s) (vars s)
    (bindings s) (cells s) (global_mousedown s) d (console s)
    (prevented s) (isSomethingBeingDragged s) (isAnimating s) (app_events s).

Definition set_console (c : option (list string)) (s : Page) : Page :=
  mkPage (coords s) (world s) (canvas s) (context s) (physicsDelta s) (vars s)
    (bindings s) (cells s) (global_mousedown s) (document_events s) c
    (prevented s) (isSomethingBeingDragged s) (isAnimating s) (app_events s).

Definition set_prevented (n : nat) (s : Page) : Page :=
  mkPage (coords s) (world s) (canvas s) (context s) (physicsDelta s) (vars s)
    (bindings s) (cells s) (global_mousedown s) (document_events s) (console s)
    n (isSomethingBeingDragged s) (isAnimating s) (app_events s).

Definition set_isSomethingBeingDragged (b : bool) (s : Page) : Page :=
  mkPage (coords s) (world s) (canvas s) (context s) (physicsDelta s) (vars s)
    (bindings s) (cells s) (global_mousedown s) (document_events s) (console s)
    (prevented s) b (isAnimating s) (app_events s).

Definition set_app_events (a : option (list string)) (s : Page) : Page :=
  mkPage (coords s) (world s) (canvas s) (context s) (physicsDelta s) (vars s)
    (bindings s) (cells s) (global_mousedown s) (document_events s) (console s)
    (prevented s) (isSomethingBeingDragged s) (isAnimating s) a.

Definition set_enabled (b : bool) (v : ScrollVars) : ScrollVars :=
  mkScrollVars (THRESHOLD v) (MOVEAMOUNT v) b (hovered v) (translating v)
    (scrolled v) (easing v).
Definition set_hovered (b : bool) (v : ScrollVars) : ScrollVars :=
  mkScrollVars (THRESHOLD v) (MOVEAMOUNT v) (enabled v) b (translating v)
    (scrolled v) (easing v).
Definition set_translating (b : bool) (v : ScrollVars) : ScrollVars :=
  mkScrollVars (THRESHOLD v) (MOVEAMOUNT v) (enabled v) (hovered v) b
    (scrolled v) (easing v).
Definition set_scrolled (p : Point.t) (v : ScrollVars) : ScrollVars :=
  mkScrollVars (THRESHOLD v) (MOVEAMOUNT v) (enabled v) (hovered v)
    (translating v) p (easing v).
Definition set_easing (e : R -> R) (v : ScrollVars) : ScrollVars :=
  mkScrollVars (THRESHOLD v) (MOVEAMOUNT v) (enabled v) (hovered v)
    (translating v) (scrolled v) e.
Definition set_THRESHOLD (t : R) (v : ScrollVars) : ScrollVars :=
  mkScrollVars t (MOVEAMOUNT v) (enabled v) (hovered v) (translating v)
    (scrolled v) (easing v).
Definition set_MOVEAMOUNT (a : R) (v : ScrollVars) : ScrollVars :=
  mkScrollVars (THRESHOLD v) a (enabled v) (hovered v) (translating v)
    (scrolled v) (easing v).

(** [jQuery(document).trigger(name)] *)
Definition document_trigger (name : string) (s : Page) : Page :=
  set_document_events (name :: document_events s) s.

(** [context.translate(dx, dy)] *)
Definition context_translate (dx dy : R) (s : Page) : Page :=
  set_context ((dx, dy) :: context s) s.

(** ** The pointer tracker *)

(** [e.originalEvent.touches[0]]: reading through a missing
    [originalEvent], a missing [touches] or a missing first element is a
    [TypeError]. *)
Definition first_touch (e : DomEvent) : JS.completion Touch :=
  match originalEvent e with
  | None => JS.Throw (JS.TypeError "e.originalEvent is undefined")
  | Some oe =>
      match touches oe with
      | None => JS.Throw (JS.TypeError "e.originalEvent.touches is undefined")
      | Some [] => JS.Throw (JS.TypeError "e.originalEvent.touches[0] is undefined")
      | Some (t :: _) => JS.Normal t
      end
  end.

(** [e.pageX || e.originalEvent.touches[0].pageX] *)
Definition read_x (e : DomEvent) : JS.completion R :=
  match pageX e with
  | Some v =>
      if JS.truthy (Some v) then JS.Normal v
      else t <- first_touch e ;; JS.Normal (touch_pageX t)
  | None => t <- first_touch e ;; JS.Normal (touch_pageX t)
  end.

(** [e.pageY || e.originalEvent.touches[0].pageY] *)
Definition read_y (e : DomEvent) : JS.completion R :=
  match pageY e with
  | Some v =>
      if JS.truthy (Some v) then JS.Normal v
      else t <- first_touch e ;; JS.Normal (touch_pageY t)
  | None => t <- first_touch e ;; JS.Normal (touch_pageY t)
  end.

(** The body of the [try] block of [trackmove]. *)
Definition trackmove_try (e : DomEvent) (s : Page) : JS.completion Page :=
  x <- read_x e ;;
  y <- read_y e ;;
  let s1 := if String.eqb (type e) "touchmove"
            then set_prevented (S (prevented s)) s else s in
  JS.Normal (set_coords (Point.mk (x - Canvas.left (canvas s1))
                                  (y - Canvas.top (canvas s1))) s1).

(** The [catch] block of [trackmove]. *)
Definition trackmove_catch (s : Page) (ex : JS.Error) : Page :=
  match console s with
  | Some log =>
      set_console
        (Some (("Unable to track cursor location. " ++ JS.string_of_error ex)%string
                 :: log)) s
  | None => s
  end.

Definition trackmove (e : DomEvent) (s : Page) : JS.completion Page :=
  JS.try_catch (trackmove_try e s) (trackmove_catch s).

(** [$canvas.off(...)]: with an event type, drop the handlers of that type
    and namespace; without one ([off('.translate')]), drop every handler of
    the namespace. *)
Definition off (ty : option string) (ns : string) (s : Page) : Page :=
  set_bindings
    (filter (fun b =>
               negb (String.eqb (b_namespace b) ns &&
                     match ty with
                     | Some t => String.eqb (b_type b) t
                     | None => true
                     end))
            (bindings s)) s.

(** [$canvas.on(...)] and [$canvas.one(...)], one event type at a time. *)
Definition on (ty ns : string) (h : Handler) (s : Page) : Page :=
  set_bindings (bindings s ++ [mkBinding ty ns false h]) s.
Definition one (ty ns : string) (h : Handler) (s : Page) : Page :=
  set_bindings (bindings s ++ [mkBinding ty ns true h]) s.

(** The two functions given to [$canvas.hover]. *)
Definition hover_in (s : Page) : Page := on "mousemove" "coords" h_trackmove s.

Definition hover_out (s : Page) : Page :=
  let s1 := off (Some "mousemove"%string) "coords" s in
  set_coords (Point.mk (-9999) (-9999)) s1.

(** [App.Events.trigger(name, ...)], when [App.Events] is defined. *)
Definition app_trigger (name : string) (s : Page) : Page :=
  match app_events s with
  | Some log => set_app_events (Some (name :: log)) s
  | None => s
  end.

(** The handler of 'mousedown mouseup click touchstart touchend'. *)
Definition delegate (e : DomEvent) (s : Page) : JS.completion Page :=
  s1 <- (if String.eqb (type e) "touchstart" then trackmove e s else JS.Normal s) ;;
  JS.Normal (if isAnimating s1 then app_trigger (type e) s1 else s1).

(** The handler of 'mouseup.drag touchend.drag'. *)
Definition dragstop (s : Page) : Page :=
  let s1 := app_trigger "canvasdragstop" s in
  let s2 := set_isSomethingBeingDragged false s1 in
  document_trigger "canvasdragstop" s2.

(** [App.isHovered] *)
Definition isHovered (obj : Box.t) (s : Page) : bool :=
  let offsets := World.getOffsets (world s) in
  let xPos := Box.x obj - Point.x offsets in
  let yPos := Box.y obj - Point.y offsets in
  JS.gt (Point.x (coords s)) xPos && JS.lt (Point.x (coords s)) (xPos + Box.width obj) &&
  JS.gt (Point.y (coords s)) yPos && JS.lt (Point.y (coords s)) (yPos + Box.height obj).

(** ** The edge scroller *)

Module easings.
Definition THRESHOLD (_ : R) : R := 1.
Definition LINEAR (val : R) : R := 1 - val.
Definition SMOOTH (val : R) : R := 0.5 - Math.cos ((1 - val) * Math.PI) / 2.
Definition EXPONENTIAL (val : R) : R := Math.sqrt (1 - val).
End easings.

(** The four branches of [translate]. *)
Inductive Edge : Type := Left | Right | Up | Down.

Definition set_xOffset (v : R) (s : Page) : Page :=
  set_world (World.mk v (World.yOffset (world s)) (World.width (world s))
               (World.height (world s))) s.
Definition set_yOffset (v : R) (s : Page) : Page :=
  set_world (World.mk (World.xOffset (world s)) v (World.width (world s))
               (World.height (world s))) s.
Definition set_scrolled_x (v : R) (s : Page) : Page :=
  set_vars (set_scrolled (Point.mk v (Point.y (scrolled (vars s)))) (vars s)) s.
Definition set_scrolled_y (v : R) (s : Page) : Page :=
  set_vars (set_scrolled (Point.mk (Point.x (scrolled (vars s))) v) (vars s)) s.

(** The "Left" / "Right" statement of [translate], with the branch that ran. *)
Definition translate_horizontal (s : Page) : Page * list Edge :=
  let T := THRESHOLD (vars s) in
  let width := Canvas.width (canvas s) in
  if JS.lt (Point.x (coords s)) (width * T) then
    let gradient := easing (vars s) (Point.x (coords s) / (width * T)) in
    let ma := Math.round (gradient * Math.min (World.xOffset (world s))
                                       (MOVEAMOUNT (vars s) * physicsDelta s)) in
    let s1 := set_xOffset (World.xOffset (world s) - ma) s in
    let s2 := set_scrolled_x (Point.x (scrolled (vars s1)) - ma) s1 in
    (context_translate ma 0 s2, [Left])
  else if JS.gt (Point.x (coords s)) (width * (1 - T)) then
    let gradient := easing (vars s) ((width - Point.x (coords s)) / (width * T)) in
    let ma := Math.round (gradient * Math.min (World.width (world s) - width
                                                 - World.xOffset (world s))
                                       (MOVEAMOUNT (vars s) * physicsDelta s)) in
    let s1 := set_xOffset (World.xOffset (world s) + ma) s in
    let s2 := set_scrolled_x (Point.x (scrolled (vars s1)) + ma) s1 in
    (context_translate (- ma) 0 s2, [Right])
  else (s, []).

(** The "Up" / "Down" statement of [translate]. *)
Definition translate_vertical (s : Page) : Page * list Edge :=
  let T := THRESHOLD (vars s) in
  let height := Canvas.height (canvas s) in
  if JS.lt (Point.y (coords s)) (height * T) then
    let gradient := easing (vars s) (Point.y (coords s) / (height * T)) in
    let ma := Math.round (gradient * Math.min (World.yOffset (world s))
                                       (MOVEAMOUNT (vars s) * physicsDelta s)) in
    let s1 := set_yOffset (World.yOffset (world s) - ma) s in
    let s2 := set_scrolled_y (Point.y (scrolled (vars s1)) - ma) s1 in
    (context_translate 0 ma s2, [Up])
  else if JS.gt (Point.y (coords s)) (height * (1 - T)) then
    let gradient := easing (vars s) ((height - Point.y (coords s)) / (height * T)) in
    let ma := Math.round (gradient * Math.min (World.height (world s) - height
                                                 - World.yOffset (world s))
                                       (MOVEAMOUNT (vars s) * physicsDelta s)) in
    let s1 := set_yOffset (World.yOffset (world s) + ma) s in
    let s2 := set_scrolled_y (Point.y (scrolled (vars s1)) + ma) s1 in
    (context_translate 0 (- ma) s2, [Down])
  else (s, []).

(** The end of [translate]: the flag and the two notifications. *)
Definition translate_flag (initialTranslationState : bool) (s : Page) : Page :=
  let s1 := set_vars
              (set_translating
                 (JS.strict_ne (Point.x (scrolled (vars s))) 0 &&
                  JS.strict_ne (Point.y (scrolled (vars s))) 0) (vars s)) s in
  if negb initialTranslationState && translating (vars s1) then
    document_trigger "mousescrollon" s1
  else if initialTranslationState && negb (translating (vars s1)) then
    document_trigger "mousescrolloff" s1
  else s1.

(** [translate], together with the list of branches it executed. *)
Definition translate_run (s : Page) : Page * list Edge :=
  let initialTranslationState := translating (vars s) in
  let h := translate_horizontal s in
  let v := translate_vertical (fst h) in
  (translate_flag initialTranslationState (fst v), snd h ++ snd v).

Definition translate (s : Page) : Page := fst (translate_run s).
Definition translate_trace (s : Page) : list Edge := snd (translate_run s).

(** What the call [translate()] returns: the [scrolled] object. *)
Definition translate_result (s : Page) : Point.t := scrolled (vars (translate s)).

(** The handlers bound by [enable]. *)
Definition first_move (s : Page) : Page :=
  if JS.ge (Point.x (coords s)) 0 && JS.ge (Point.y (coords s)) 0 then
    translate (set_vars (set_hovered true (vars s)) s)
  else s.

Definition enter (s : Page) : Page :=
  translate (set_vars (set_hovered true (vars s)) s).

Definition leave (s : Page) : Page :=
  let s1 := set_vars (set_hovered false (vars s)) s in
  if translating (vars s1) then
    document_trigger "mousescrolloff"
      (set_vars (set_translating false (vars s1)) s1)
  else s1.

Fixpoint assign (n : nat) (b : bool) (l : list bool) : list bool :=
  match l, n with
  | [], _ => []
  | _ :: l', O => b :: l'
  | c :: l', S n' => c :: assign n' b l'
  end.

(** The press and release handlers assign the [mousedown] variable of the
    call of [enable] that bound them. *)
Definition press (cell : nat) (s : Page) : Page :=
  set_cells (assign cell true (cells s)) s.
Definition release (cell : nat) (s : Page) : Page :=
  set_cells (assign cell false (cells s)) s.

(** [Mouse.Scroll.enable] *)
Definition enable (s : Page) : Page :=
  if enabled (vars s) then s
  else
    let s1 := set_vars (set_enabled true (vars s)) s in
    let s2 := one "mousemove" "translate" h_first_move s1 in
    let s3 := on "touchstart" "translate" h_enter
                (on "mouseenter" "translate" h_enter s2) in
    let s4 := on "touchleave" "translate" h_leave
                (on "mouseleave" "translate" h_leave s3) in
    let cell := List.length (cells s4) in
    let s5 := set_cells (cells s4 ++ [false]) s4 in
    let s6 := on "touchstart" "translate" (h_press cell)
                (on "mousedown" "translate" (h_press cell) s5) in
    on "touchend" "translate" (h_release cell)
      (on "mouseup" "translate" (h_release cell) s6).

(** [Mouse.Scroll.disable] *)
Definition disable (s : Page) : Page :=
  let s1 := off None "translate" s in
  let s2 := set_vars (set_hovered false (vars s1)) s1 in
  let s3 := set_vars (set_enabled false (vars s2)) s2 in
  set_vars (set_translating false (vars s3)) s3.

Definition isEnabled (s : Page) : bool := enabled (vars s).
Definition isScrolling (s : Page) : bool := translating (vars s).

(** [Mouse.Scroll._update].  The identifier [mousedown] is not declared in
    the scope of this function (the variable of that name is local to
    [enable]), so it is looked up among the globals: evaluating it when no
    such global exists raises a [ReferenceError].  The call returns the
    [scrolled] object, or [undefined]. *)
Definition _update (s : Page) : JS.completion (Page * option Point.t) :=
  if hovered (vars s) then
    match global_mousedown s with
    | None => JS.Throw (JS.ReferenceError "mousedown")
    | Some mousedown =>
        if negb mousedown then
          JS.Normal (translate s, Some (translate_result s))
        else JS.Normal (s, None)
    end
  else JS.Normal (s, None).

Definition setEasingFunction (e : R -> R) (s : Page) : Page :=
  set_vars (set_easing e (vars s)) s.
Definition getEasingFunction (s : Page) : R -> R := easing (vars s).
Definition setThreshold (t : R) (s : Page) : Page :=
  set_vars (set_THRESHOLD t (vars s)) s.
Definition getThreshold (s : Page) : R := THRESHOLD (vars s).
Definition setScrollDistance (a : R) (s : Page) : Page :=
  set_vars (set_MOVEAMOUNT a (vars s)) s.
Definition getScrollDistance (s : Page) : R := MOVEAMOUNT (vars s).

(** ** Event delivery *)

Definition run_handler (h : Handler) (e : DomEvent) (s : Page)
  : JS.completion Page :=
  match h with
  | h_trackmove => trackmove e s
  | h_hover_in => JS.Normal (hover_in s)
  | h_hover_out => JS.Normal (hover_out s)
  | h_delegate => delegate e s
  | h_dragstop => JS.Normal (dragstop s)
  | h_first_move => JS.Normal (first_move s)
  | h_enter => JS.Normal (enter s)
  | h_leave => JS.Normal (leave s)
  | h_press cell => JS.Normal (press cell s)
  | h_release cell => JS.Normal (release cell s)
  end.

Definition Handler_eq_dec (a b : Handler) : {a = b} + {a <> b}.
Proof. decide equality; apply Nat.eq_dec. Defined.

Definition Binding_eq_dec (a b : Binding) : {a = b} + {a <> b}.
Proof.
  decide equality;
    [ apply Handler_eq_dec | apply bool_dec | apply string_dec | apply string_dec ].
Defined.

Fixpoint remove_first (b : Binding) (l : list Binding) : list Binding :=
  match l with
  | [] => []
  | b' :: l' => if Binding_eq_dec b b' then l' else b' :: remove_first b l'
  end.

(** The handlers bound to the type of [e] when the event arrives run in the
    order in which they were bound; a handler bound with [one] is unbound
    just before it runs; an exception ends the delivery. *)
Fixpoint dispatch (bs : list Binding) (e : DomEvent) (s : Page)
  : JS.completion Page :=
  match bs with
  | [] => JS.Normal s
  | b :: bs' =>
      let s0 := if b_once b
                then set_bindings (remove_first b (bindings s)) s else s in
      s1 <- run_handler (b_handler b) e s0 ;;
      dispatch bs' e s1
  end.

Definition fire (e : DomEvent) (s : Page) : JS.completion Page :=
  dispatch (filter (fun b => String.eqb (b_type b) (type e)) (bindings s)) e s.

(** The function run at [jQuery(document).ready]: the bindings on the
    canvas.  (The 'canvasdrop' handler is bound on the document and only
    forwards to [App.Events]; it is outside [bindings].) *)
Definition ready (s : Page) : Page :=
  let s1 := on "touchmove" "coords" h_trackmove s in
  let s2 := on "mouseleave" "" h_hover_out (on "mouseenter" "" h_hover_in s1) in
  let s3 := on "touchend" "" h_delegate
              (on "touchstart" "" h_delegate
                 (on "click" "" h_delegate
                    (on "mouseup" "" h_delegate
                       (on "mousedown" "" h_delegate s2)))) in
  on "touchend" "drag" h_dragstop (on "mouseup" "drag" h_dragstop s3).

(** The state when the script has been loaded, for a given canvas, world and
    frame time. *)
Definition loaded (cv : Canvas.t) (w : World.t) (delta : R) : Page :=
  mkPage (Point.mk (-9999) (-9999)) w cv [] delta
    (mkScrollVars 0.2 350 false false false (Point.mk 0 0) easings.SMOOTH)
    [] [] None [] (Some []) 0 false true None.

(** ** Properties of the state used in the statements *)

(** Both offsets lie between 0 and world size minus canvas size. *)
Definition offsets_in_range (s : Page) : Prop :=
  0 <= World.xOffset (world s) <= World.width (world s) - Canvas.width (canvas s) /\
  0 <= World.yOffset (world s) <= World.height (world s) - Canvas.height (canvas s).

(** The easing function maps [0,1] into [0,1]. *)
Definition easing_in_unit (f : R -> R) : Prop :=
  forall v, 0 <= v <= 1 -> 0 <= f v <= 1.

(** The pointer is on the canvas. *)
Definition pointer_on_canvas (s : Page) : Prop :=
  0 <= Point.x (coords s) <= Canvas.width (canvas s) /\
  0 <= Point.y (coords s) <= Canvas.height (canvas s).

(** A whole number of pixels. *)
Definition whole (v : R) : Prop := exists n : Z, v = IZR n.

(** The pointer is strictly inside the rectangle of [obj] as drawn on the
    canvas. *)
Definition strictly_inside (obj : Box.t) (s : Page) : Prop :=
  Box.x obj - World.xOffset (world s) < Point.x (coords s)
    < Box.x obj - World.xOffset (world s) + Box.width obj /\
  Box.y obj - World.yOffset (world s) < Point.y (coords s)
    < Box.y obj - World.yOffset (world s) + Box.height obj.

(** The parts of the page that no statement of [translate] assigns. *)
Definition same_wiring (s s' : Page) : Prop :=
  coords s' = coords s /\
  bindings s' = bindings s /\
  cells s' = cells s /\
  global_mousedown s' = global_mousedown s /\
  hovered (vars s') = hovered (vars s) /\
  enabled (vars s') = enabled (vars s) /\
  isAnimating s' = isAnimating s /\
  app_events s' = app_events s.

(** ** Pages and events used as examples *)

Definition sample_canvas : Canvas.t := Canvas.mk 1000 800 0 0.
Definition sample_world (xo yo : R) : World.t := World.mk xo yo 3000 2000.

(** LINEAR easing, frame time 1 s, pointer at [(px, 400)] (vertically in
    the middle of the canvas), horizontal offset [xo]. *)
Definition linear_page (px xo : R) : Page :=
  set_coords (Point.mk px 400)
    (setEasingFunction easings.LINEAR (loaded sample_canvas (sample_world xo 0) 1)).

(** The first tick after loading, at 50 frames per second, with the pointer
    on the left edge and vertically in the middle of the canvas. *)
Definition left_edge_page : Page :=
  set_coords (Point.mk 0 400) (loaded sample_canvas (sample_world 500 0) 0.02).

(** A tick with the pointer in the middle of the canvas, after earlier
    ticks have scrolled 7 pixels left and 7 pixels up. *)
Definition idle_page : Page :=
  set_vars (set_translating true (set_scrolled (Point.mk (-7) (-7))
              (vars (loaded sample_canvas (sample_world 493 493) 0.02))))
    (set_coords (Point.mk 500 400)
       (loaded sample_canvas (sample_world 493 493) 0.02)).

(** A threshold of 0.6 (outside the documented [0, 0.5)): the bands of
    opposite edges overlap, and the pointer at (500, 400) is in all four. *)
Definition wide_threshold_page : Page :=
  setThreshold 0.6
    (set_coords (Point.mk 500 400) (loaded sample_canvas (sample_world 500 500) 0.02)).

(** A touch event without any touch point. *)
Definition touch_without_touches : DomEvent :=
  mkDomEvent "touchmove" None None (Some (mkOriginalEvent (Some []))).

(** A mouse event at page position [(px, py)]. *)
Definition mouse_event (ty : string) (px py : R) : DomEvent :=
  mkDomEvent ty (Some px) (Some py) (Some (mkOriginalEvent None)).

(** The page once the script has run, and once [Mouse.Scroll.enable()] has
    been called. *)
Definition ready_page : Page :=
  ready (loaded sample_canvas (sample_world 500 0) 0.02).
Definition enabled_page : Page := enable ready_page.

(** LINEAR easing chosen, the script run and the scroller enabled; the
    pointer has not been over the canvas yet. *)
Definition linear_enabled_page : Page :=
  enable (ready (setEasingFunction easings.LINEAR
                   (loaded sample_canvas (sample_world 100 0) 0.02))).

(** The state in which the handler of 'mouseenter.translate' calls
    [translate] on that page: [hover_in] has run and [hovered] is set. *)
Definition linear_entering_page : Page :=
  set_vars (set_hovered true (vars (hover_in linear_enabled_page)))
    (hover_in linear_enabled_page).

(** Another script declares a global variable [mousedown]. *)
Definition declare_global_mousedown (v : bool) (s : Page) : Page :=
  mkPage (coords s) (world s) (canvas s) (context s) (physicsDelta s) (vars s)
    (bindings s) (cells s) (Some v) (document_events s) (console s)
    (prevented s) (isSomethingBeingDragged s) (isAnimating s) (app_events s).

(** The pointer rests on the left edge, the press flag of the one call of
    [enable] is set, and a global [mousedown] with a falsy value exists. *)
Definition pressed_page_with_global : Page :=
  press 0
    (declare_global_mousedown false
       (set_cells [false]
          (set_vars (set_hovered true (set_enabled true (vars left_edge_page)))
             left_edge_page))).

(** ** Further notions used in the statements *)

(** The total horizontal and vertical translation applied to the rendering
    context by the calls recorded in [context]. *)
Fixpoint sum_dx (calls : list (R * R)) : R :=
  match calls with
  | [] => 0
  | (dx, _) :: rest => dx + sum_dx rest
  end.

Fixpoint sum_dy (calls : list (R * R)) : R :=
  match calls with
  | [] => 0
  | (_, dy) :: rest => dy + sum_dy rest
  end.

(** The handlers bound under the namespace of the scroller. *)
Definition in_translate_namespace (b : Binding) : bool :=
  String.eqb (b_namespace b) "translate".

Definition translate_handlers (s : Page) : list Binding :=
  filter in_translate_namespace (bindings s).

(** The scroller holds its nine handlers when it is enabled and none when
    it is not. *)
Definition wired (s : Page) : Prop :=
  List.length (translate_handlers s) = if enabled (vars s) then 9%nat else 0%nat.

(** Calls of the public switch of [Mouse.Scroll], and a sequence of them. *)
Inductive Call : Type := call_enable | call_disable.

Definition run_call (c : Call) (s : Page) : Page :=
  match c with
  | call_enable => enable s
  | call_disable => disable s
  end.

Fixpoint run_calls (cs : list Call) (s : Page) : Page :=
  match cs with
  | [] => s
  | c :: cs' => run_calls cs' (run_call c s)
  end.

(** [obj] moved by [(dx, dy)]. *)
Definition move_box (dx dy : R) (obj : Box.t) : Box.t :=
  Box.mk (Box.x obj + dx) (Box.y obj + dy) (Box.width obj) (Box.height obj).

(** A touch event with one touch point at page position [(px, py)]; jQuery
    leaves [pageX] and [pageY] of such an event undefined. *)
Definition touch_event (ty : string) (px py : R) : DomEvent :=
  mkDomEvent ty None None (Some (mkOriginalEvent (Some [mkTouch px py]))).

(** The quantities that one call of [translate] keeps in step: the offset
    plus the translation applied to the context, and the total in
    [scrolled] minus the offset, on each axis. *)
Definition in_step (s s' : Page) : Prop :=
  World.xOffset (world s') + sum_dx (context s') =
    World.xOffset (world s) + sum_dx (context s) /\
  World.yOffset (world s') + sum_dy (context s') =
    World.yOffset (world s) + sum_dy (context s) /\
  Point.x (scrolled (vars s')) - World.xOffset (world s') =
    Point.x (scrolled (vars s)) - World.xOffset (world s) /\
  Point.y (scrolled (vars s')) - World.yOffset (world s') =
    Point.y (scrolled (vars s)) - World.yOffset (world s).

(** The easing function has all its values in [0,1]. *)
Definition easing_total_unit (f : R -> R) : Prop :=
  forall v, 0 <= f v <= 1.

(** What a run of ticks keeps: in-range offsets in whole pixels, a world
    that exceeds the canvas by whole pixels, an easing function with all its
    values in [0,1], a distance per tick that is not negative, and bands
    with a width. *)
Definition scroll_invariant (s : Page) : Prop :=
  offsets_in_range s /\
  easing_total_unit (easing (vars s)) /\
  whole (World.xOffset (world s)) /\
  whole (World.yOffset (world s)) /\
  whole (World.width (world s) - Canvas.width (canvas s)) /\
  whole (World.height (world s) - Canvas.height (canvas s)) /\
  0 <= MOVEAMOUNT (vars s) * physicsDelta s /\
  Canvas.width (canvas s) * THRESHOLD (vars s) <> 0 /\
  Canvas.height (canvas s) * THRESHOLD (vars s) <> 0.

(** A run of ticks: before each call of [translate] the pointer is
    wherever the next element of the list puts it. *)
Fixpoint play (pointer : list Point.t) (s : Page) : Page :=
  match pointer with
  | [] => s
  | p :: rest => play rest (translate (set_coords p s))
  end.

(** * Properties *)

(** Projections of updated records. *)
Ltac fields :=
  cbn [fst snd
       coords world canvas context physicsDelta vars bindings cells
       global_mousedown document_events console prevented
       isSomethingBeingDragged isAnimating app_events
       THRESHOLD MOVEAMOUNT enabled hovered translating scrolled easing
       set_coords set_world set_context set_vars set_bindings set_cells
       set_document_events set_console set_prevented
       set_isSomethingBeingDragged set_app_events
       set_enabled set_hovered set_translating set_scrolled set_easing
       set_THRESHOLD set_MOVEAMOUNT
       set_xOffset set_yOffset set_scrolled_x set_scrolled_y
       document_trigger context_translate
       World.xOffset World.yOffset World.width World.height
       Canvas.width Canvas.height Canvas.left Canvas.top
       Point.x Point.y] in *.

(** The example pages, unfolded. *)
Ltac sample :=
  unfold linear_page, setEasingFunction, loaded, sample_canvas, sample_world in *;
  fields.

(** ** Comparisons and rounding *)

Lemma lt_true_iff (a b : R) : JS.lt a b = true <-> a < b.
Proof.
  unfold JS.lt. destruct (Rlt_dec a b) as [H | H]; split; intro K;
    try reflexivity; try assumption; try discriminate; contradiction.
Qed.

Lemma lt_false_iff (a b : R) : JS.lt a b = false <-> b <= a.
Proof.
  unfold JS.lt. destruct (Rlt_dec a b) as [H | H]; split; intro K;
    try reflexivity; try discriminate; lra.
Qed.

Lemma gt_true_iff (a b : R) : JS.gt a b = true <-> b < a.
Proof. unfold JS.gt. apply lt_true_iff. Qed.

Lemma gt_false_iff (a b : R) : JS.gt a b = false <-> a <= b.
Proof. unfold JS.gt. apply lt_false_iff. Qed.

Lemma strict_ne_true_iff (a b : R) : JS.strict_ne a b = true <-> a <> b.
Proof.
  unfold JS.strict_ne. destruct (Req_dec_T a b) as [H | H]; split; intro K;
    try reflexivity; try assumption; try discriminate; contradiction.
Qed.

Lemma strict_ne_false_iff (a b : R) : JS.strict_ne a b = false <-> a = b.
Proof.
  unfold JS.strict_ne. destruct (Req_dec_T a b) as [H | H]; split; intro K;
    try reflexivity; try assumption; try discriminate; contradiction.
Qed.

(** [Math.round v] is the integer [k] with [k - 1/2 <= v < k + 1/2]. *)
Lemma round_bounds (v : R) :
  Math.round v - / 2 <= v < Math.round v + / 2.
Proof.
  unfold Math.round.
  destruct (base_Int_part (v + / 2)) as [Hle Hgt]. lra.
Qed.

Lemma round_unique (v : R) (k : Z) :
  IZR k - / 2 <= v < IZR k + / 2 -> Math.round v = IZR k.
Proof.
  intros [Hlo Hhi]. unfold Math.round. f_equal. symmetry.
  apply Int_part_spec. lra.
Qed.

Lemma round_whole (v : R) : whole (Math.round v).
Proof. unfold Math.round. eexists. reflexivity. Qed.


(** Rounding never passes a whole number that bounds the argument. *)
Lemma round_le_whole (v : R) (k : Z) : v <= IZR k -> Math.round v <= IZR k.
Proof.
  intro Hv. destruct (round_whole v) as [r Hr]. rewrite Hr.
  apply IZR_le. apply Z.lt_succ_r. apply lt_IZR. rewrite succ_IZR.
  pose proof (round_bounds v). lra.
Qed.

Lemma round_ge_whole (v : R) (k : Z) : IZR k <= v -> IZR k <= Math.round v.
Proof.
  intro Hv. destruct (round_whole v) as [r Hr]. rewrite Hr.
  apply IZR_le. apply Z.lt_succ_r. apply lt_IZR. rewrite succ_IZR.
  pose proof (round_bounds v). lra.
Qed.

(** ** The hit test *)

Lemma isHovered_spec (obj : Box.t) (s : Page) :
  isHovered obj s = true <-> strictly_inside obj s.
Proof.
  unfold isHovered, strictly_inside, World.getOffsets.
  cbn [Point.x Point.y].
  rewrite !andb_true_iff, !gt_true_iff, !lt_true_iff. tauto.
Qed.

(** C3: the hit test answers [true] exactly when the pointer is strictly
    inside the rectangle of the object translated by the viewport offsets,
    on all four sides; on an edge or outside it answers [false]. *)
Theorem isHovered_strictly_inside (obj : Box.t) (s : Page) :
  (isHovered obj s = true <->
     Box.x obj - World.xOffset (world s) < Point.x (coords s)
       < Box.x obj - World.xOffset (world s) + Box.width obj /\
     Box.y obj - World.yOffset (world s) < Point.y (coords s)
       < Box.y obj - World.yOffset (world s) + Box.height obj) /\
  (isHovered obj s = false <->
     Point.x (coords s) <= Box.x obj - World.xOffset (world s) \/
     Box.x obj - World.xOffset (world s) + Box.width obj <= Point.x (coords s) \/
     Point.y (coords s) <= Box.y obj - World.yOffset (world s) \/
     Box.y obj - World.yOffset (world s) + Box.height obj <= Point.y (coords s)).
Proof.
  split.
  - apply isHovered_spec.
  - rewrite <- not_true_iff_false, isHovered_spec. unfold strictly_inside.
    split; intro H; lra.
Qed.

(** C5: the handler run when the mouse leaves the canvas puts the sentinel
    (-9999, -9999) in [Mouse.coords], and with it the hit test is [false]
    for every rectangle whose translated bounds are non-negative. *)
Theorem hover_out_sentinel (obj : Box.t) (s : Page) :
  0 <= Box.x obj - World.xOffset (world s) ->
  0 <= Box.y obj - World.yOffset (world s) ->
  0 <= Box.x obj - World.xOffset (world s) + Box.width obj ->
  0 <= Box.y obj - World.yOffset (world s) + Box.height obj ->
  coords (hover_out s) = Point.mk (-9999) (-9999) /\
  isHovered obj (hover_out s) = false.
Proof.
  intros Hx Hy Hw Hh. split; [reflexivity |].
  rewrite <- not_true_iff_false, isHovered_spec. unfold strictly_inside.
  cbn [hover_out set_coords off set_bindings coords world Point.x Point.y].
  lra.
Qed.

Lemma hover_out_sentinel_witness :
  isHovered (Box.mk 10 20 50 40)
            (hover_out (loaded (Canvas.mk 1000 800 0 0) (World.mk 0 0 3000 2000) 1))
  = false.
Proof.
  apply (hover_out_sentinel (Box.mk 10 20 50 40)
           (loaded (Canvas.mk 1000 800 0 0) (World.mk 0 0 3000 2000) 1));
    cbn [loaded world World.xOffset World.yOffset
         Box.x Box.y Box.width Box.height]; lra.
Defined.

(** On the page as loaded, and on the page with the scroller enabled, a
    mouseleave event on the canvas runs that handler, and [Mouse.coords] is
    the sentinel afterwards. *)
Lemma fire_mouseleave :
  fire (mouse_event "mouseleave" 1200 400) ready_page
  = JS.Normal (hover_out ready_page) /\
  fire (mouse_event "mouseleave" 1200 400) enabled_page
  = JS.Normal (leave (hover_out enabled_page)) /\
  coords (leave (hover_out enabled_page)) = Point.mk (-9999) (-9999).
Proof. split; [reflexivity | split; reflexivity]. Qed.

(** ** Movement events *)

Lemma trackmove_completes (e : DomEvent) (s : Page) :
  exists s', trackmove e s = JS.Normal s'.
Proof.
  unfold trackmove, JS.try_catch.
  destruct (trackmove_try e s); eexists; reflexivity.
Qed.

Lemma trackmove_try_throws (e : DomEvent) (s : Page) (ex : JS.Error) :
  read_x e = JS.Throw ex \/ read_y e = JS.Throw ex ->
  exists ex', trackmove_try e s = JS.Throw ex'.
Proof.
  intros [H | H]; unfold trackmove_try.
  - rewrite H. eexists. reflexivity.
  - destruct (read_x e) as [x | ex0]; cbn [JS.bind].
    + rewrite H. eexists. reflexivity.
    + eexists. reflexivity.
Qed.

Lemma trackmove_catch_keeps (s : Page) (ex : JS.Error) :
  coords (trackmove_catch s ex) = coords s /\
  bindings (trackmove_catch s ex) = bindings s /\
  canvas (trackmove_catch s ex) = canvas s.
Proof. unfold trackmove_catch. destruct (console s); repeat split. Qed.

Lemma trackmove_well_formed (e : DomEvent) (s : Page) (x y : R) :
  read_x e = JS.Normal x -> read_y e = JS.Normal y ->
  exists s', trackmove e s = JS.Normal s' /\
             coords s' = Point.mk (x - Canvas.left (canvas s))
                                  (y - Canvas.top (canvas s)).
Proof.
  intros Hx Hy. unfold trackmove, trackmove_try. rewrite Hx, Hy.
  cbn [JS.bind JS.try_catch]. eexists. split; [reflexivity |].
  destruct (String.eqb (type e) "touchmove"); reflexivity.
Qed.

(** C7: when reading the coordinates of a movement event raises an
    exception, [trackmove] still completes normally, [Mouse.coords] and the
    bound handlers are as before, and a later event whose coordinates can be
    read is tracked as usual. *)
Theorem trackmove_discards_unreadable (e : DomEvent) (s : Page) (ex : JS.Error) :
  read_x e = JS.Throw ex \/ read_y e = JS.Throw ex ->
  exists s',
    trackmove e s = JS.Normal s' /\
    coords s' = coords s /\
    bindings s' = bindings s /\
    forall (e2 : DomEvent) (x2 y2 : R),
      read_x e2 = JS.Normal x2 -> read_y e2 = JS.Normal y2 ->
      exists s2,
        trackmove e2 s' = JS.Normal s2 /\
        coords s2 = Point.mk (x2 - Canvas.left (canvas s))
                             (y2 - Canvas.top (canvas s)).
Proof.
  intro H. destruct (trackmove_try_throws e s ex H) as [ex' Hthrow].
  exists (trackmove_catch s ex').
  destruct (trackmove_catch_keeps s ex') as (Hc & Hb & Hcv).
  repeat split; try assumption.
  - unfold trackmove. rewrite Hthrow. reflexivity.
  - intros e2 x2 y2 Hx Hy. rewrite <- Hcv.
    apply trackmove_well_formed; assumption.
Qed.

Lemma trackmove_discards_unreadable_witness :
  exists s',
    trackmove touch_without_touches
      (loaded (Canvas.mk 1000 800 0 0) (World.mk 0 0 3000 2000) 1)
    = JS.Normal s' /\
    coords s' = Point.mk (-9999) (-9999).
Proof.
  destruct (trackmove_discards_unreadable touch_without_touches
              (loaded (Canvas.mk 1000 800 0 0) (World.mk 0 0 3000 2000) 1)
              (JS.TypeError "e.originalEvent.touches[0] is undefined"))
    as (s' & Hrun & Hcoords & _).
  - left. reflexivity.
  - exists s'. split; [exact Hrun | exact Hcoords].
Defined.

(** ** The branches of [translate] *)

Lemma translate_horizontal_trace (s : Page) :
  snd (translate_horizontal s) = [] \/
  snd (translate_horizontal s) = [Left] \/
  snd (translate_horizontal s) = [Right].
Proof.
  unfold translate_horizontal.
  destruct (JS.lt _ _); [right; left; reflexivity |].
  destruct (JS.gt _ _); [right; right; reflexivity | left; reflexivity].
Qed.

Lemma translate_vertical_trace (s : Page) :
  snd (translate_vertical s) = [] \/
  snd (translate_vertical s) = [Up] \/
  snd (translate_vertical s) = [Down].
Proof.
  unfold translate_vertical.
  destruct (JS.lt _ _); [right; left; reflexivity |].
  destruct (JS.gt _ _); [right; right; reflexivity | left; reflexivity].
Qed.

(** C8: one call of [translate] never runs both the left and the right
    branch, and never both the up and the down branch. *)
Theorem translate_one_edge_per_axis (s : Page) :
  ~ (In Left (translate_trace s) /\ In Right (translate_trace s)) /\
  ~ (In Up (translate_trace s) /\ In Down (translate_trace s)).
Proof.
  unfold translate_trace, translate_run. cbn [snd].
  destruct (translate_horizontal_trace s) as [Hh | [Hh | Hh]];
    destruct (translate_vertical_trace (fst (translate_horizontal s)))
      as [Hv | [Hv | Hv]];
    rewrite Hh, Hv; split; intros [H1 H2];
    cbn [app In] in H1, H2;
    repeat match goal with
           | H : _ \/ _ |- _ => destruct H
           | H : False |- _ => destruct H
           end; discriminate.
Qed.

(** ** The easing functions *)

Lemma SMOOTH_in_unit (val : R) : 0 <= easings.SMOOTH val <= 1.
Proof.
  unfold easings.SMOOTH, Math.cos.
  pose proof (COS_bound ((1 - val) * Math.PI)). lra.
Qed.

Lemma EXPONENTIAL_in_unit (val : R) :
  0 <= val <= 1 -> 0 <= easings.EXPONENTIAL val <= 1.
Proof.
  intros [H0 H1]. unfold easings.EXPONENTIAL, Math.sqrt. split.
  - apply sqrt_pos.
  - apply Rle_trans with (R_sqrt.sqrt 1).
    + apply sqrt_le_1_alt. lra.
    + rewrite sqrt_1. lra.
Qed.

(** C9: the four easing functions are the functions given by their
    formulas, and each maps [0,1] into [0,1]. *)
Theorem easings_formulas_and_range (val : R) :
  (easings.THRESHOLD val = 1 /\
   easings.LINEAR val = 1 - val /\
   easings.SMOOTH val = 0.5 - cos ((1 - val) * PI) / 2 /\
   easings.EXPONENTIAL val = sqrt (1 - val)) /\
  (0 <= val <= 1 ->
   0 <= easings.THRESHOLD val <= 1 /\
   0 <= easings.LINEAR val <= 1 /\
   0 <= easings.SMOOTH val <= 1 /\
   0 <= easings.EXPONENTIAL val <= 1).
Proof.
  split.
  - repeat split.
  - intro H. split; [| split; [| split]].
    + unfold easings.THRESHOLD. lra.
    + unfold easings.LINEAR. lra.
    + apply SMOOTH_in_unit.
    + apply EXPONENTIAL_in_unit. exact H.
Qed.

Lemma easings_formulas_and_range_witness :
  0 <= easings.SMOOTH (/ 4) <= 1 /\ 0 <= easings.EXPONENTIAL (/ 4) <= 1.
Proof.
  destruct (easings_formulas_and_range (/ 4)) as [_ H].
  destruct H as (_ & _ & Hs & He); [lra |].
  split; [exact Hs | exact He].
Defined.

(** ** Enabling the scroller *)

Lemma enable_enabled (s : Page) : enabled (vars (enable s)) = true.
Proof.
  unfold enable. destruct (enabled (vars s)) eqn:E; [exact E | reflexivity].
Qed.

Lemma enable_when_enabled (s : Page) :
  enabled (vars s) = true -> enable s = s.
Proof. intro H. unfold enable. rewrite H. reflexivity. Qed.

(** C10: [enable] on an enabled scroller returns at once and leaves the
    whole state, bound handlers included, as it is; so enabling twice is
    the same as enabling once. *)
Theorem enable_idempotent (s : Page) :
  (enabled (vars s) = true ->
   enable s = s /\ bindings (enable s) = bindings s) /\
  enable (enable s) = enable s.
Proof.
  split.
  - intro H. rewrite (enable_when_enabled s H). split; reflexivity.
  - apply enable_when_enabled. apply enable_enabled.
Qed.

Lemma enable_idempotent_witness :
  enable (enable (loaded (Canvas.mk 1000 800 0 0) (World.mk 0 0 3000 2000) 1))
  = enable (loaded (Canvas.mk 1000 800 0 0) (World.mk 0 0 3000 2000) 1).
Proof.
  apply (proj1 (enable_idempotent
                  (enable (loaded (Canvas.mk 1000 800 0 0)
                                  (World.mk 0 0 3000 2000) 1)))).
  reflexivity.
Defined.

(** ** One call of [translate] *)

(** What the horizontal statement leaves alone. *)
Lemma translate_horizontal_frame (s : Page) :
  let s' := fst (translate_horizontal s) in
  coords s' = coords s /\ canvas s' = canvas s /\
  physicsDelta s' = physicsDelta s /\
  THRESHOLD (vars s') = THRESHOLD (vars s) /\
  MOVEAMOUNT (vars s') = MOVEAMOUNT (vars s) /\
  easing (vars s') = easing (vars s) /\
  translating (vars s') = translating (vars s) /\
  Point.y (scrolled (vars s')) = Point.y (scrolled (vars s)) /\
  World.yOffset (world s') = World.yOffset (world s) /\
  World.width (world s') = World.width (world s) /\
  World.height (world s') = World.height (world s).
Proof.
  unfold translate_horizontal.
  destruct (JS.lt _ _); [| destruct (JS.gt _ _)]; fields; repeat split.
Qed.

(** What the vertical statement leaves alone. *)
Lemma translate_vertical_frame (s : Page) :
  let s' := fst (translate_vertical s) in
  coords s' = coords s /\ canvas s' = canvas s /\
  Point.x (scrolled (vars s')) = Point.x (scrolled (vars s)) /\
  translating (vars s') = translating (vars s) /\
  World.xOffset (world s') = World.xOffset (world s) /\
  World.width (world s') = World.width (world s) /\
  World.height (world s') = World.height (world s).
Proof.
  unfold translate_vertical.
  destruct (JS.lt _ _); [| destruct (JS.gt _ _)]; fields; repeat split.
Qed.

Lemma translate_flag_frame (init : bool) (s : Page) :
  world (translate_flag init s) = world s /\
  canvas (translate_flag init s) = canvas s /\
  scrolled (vars (translate_flag init s)) = scrolled (vars s) /\
  translating (vars (translate_flag init s)) =
    JS.strict_ne (Point.x (scrolled (vars s))) 0 &&
    JS.strict_ne (Point.y (scrolled (vars s))) 0.
Proof.
  unfold translate_flag. fields.
  destruct (negb init && _); [| destruct (init && _)]; fields; repeat split.
Qed.

(** The tests of the two edges of an axis can both succeed; the second one
    is then not looked at. *)
Lemma overlapping_bands_run_first_branch :
  JS.lt (Point.x (coords wide_threshold_page))
        (Canvas.width (canvas wide_threshold_page)
         * THRESHOLD (vars wide_threshold_page)) = true /\
  JS.gt (Point.x (coords wide_threshold_page))
        (Canvas.width (canvas wide_threshold_page)
         * (1 - THRESHOLD (vars wide_threshold_page))) = true /\
  translate_trace wide_threshold_page = [Left; Up].
Proof.
  assert (Hl : JS.lt 500 (1000 * 0.6) = true) by (apply lt_true_iff; lra).
  assert (Hr : JS.gt 500 (1000 * (1 - 0.6)) = true) by (apply gt_true_iff; lra).
  assert (Hu : JS.lt 400 (800 * 0.6) = true) by (apply lt_true_iff; lra).
  split; [exact Hl |]. split; [exact Hr |].
  unfold translate_trace, translate_run. cbn [snd].
  assert (Hh : snd (translate_horizontal wide_threshold_page) = [Left]).
  { unfold translate_horizontal, wide_threshold_page, setThreshold, loaded,
      sample_canvas. fields. rewrite Hl. reflexivity. }
  assert (Hv : snd (translate_vertical (fst (translate_horizontal wide_threshold_page)))
               = [Up]).
  { destruct (translate_horizontal_frame wide_threshold_page)
      as (Fc & Fcv & _ & Ft & _).
    cbv zeta in Fc, Fcv, Ft.
    unfold translate_vertical. rewrite Fc, Fcv, Ft.
    unfold wide_threshold_page, setThreshold, loaded, sample_canvas. fields.
    rewrite Hu. reflexivity. }
  rewrite Hh, Hv. reflexivity.
Qed.

(** The offsets after [translate] are those left by the two statements. *)
Lemma translate_xOffset (s : Page) :
  World.xOffset (world (translate s)) =
  World.xOffset (world (fst (translate_horizontal s))).
Proof.
  unfold translate, translate_run. cbn [fst].
  destruct (translate_flag_frame (translating (vars s))
              (fst (translate_vertical (fst (translate_horizontal s)))))
    as (Hw & _).
  rewrite Hw.
  apply (translate_vertical_frame (fst (translate_horizontal s))).
Qed.

Lemma translate_yOffset (s : Page) :
  World.yOffset (world (translate s)) =
  World.yOffset (world (fst (translate_vertical (fst (translate_horizontal s))))).
Proof.
  unfold translate, translate_run. cbn [fst].
  destruct (translate_flag_frame (translating (vars s))
              (fst (translate_vertical (fst (translate_horizontal s)))))
    as (Hw & _).
  rewrite Hw. reflexivity.
Qed.

(** The horizontal offset after the left branch, the right branch and
    neither. *)
Lemma translate_horizontal_left (s : Page) :
  Point.x (coords s) < Canvas.width (canvas s) * THRESHOLD (vars s) ->
  World.xOffset (world (fst (translate_horizontal s))) =
  World.xOffset (world s) -
  Math.round (easing (vars s)
                (Point.x (coords s) / (Canvas.width (canvas s) * THRESHOLD (vars s)))
              * Math.min (World.xOffset (world s))
                         (MOVEAMOUNT (vars s) * physicsDelta s)).
Proof.
  intro H. unfold translate_horizontal.
  rewrite (proj2 (lt_true_iff _ _) H). fields. reflexivity.
Qed.

Lemma translate_horizontal_right (s : Page) :
  Canvas.width (canvas s) * THRESHOLD (vars s) <= Point.x (coords s) ->
  Canvas.width (canvas s) * (1 - THRESHOLD (vars s)) < Point.x (coords s) ->
  World.xOffset (world (fst (translate_horizontal s))) =
  World.xOffset (world s) +
  Math.round (easing (vars s)
                ((Canvas.width (canvas s) - Point.x (coords s))
                 / (Canvas.width (canvas s) * THRESHOLD (vars s)))
              * Math.min (World.width (world s) - Canvas.width (canvas s)
                          - World.xOffset (world s))
                         (MOVEAMOUNT (vars s) * physicsDelta s)).
Proof.
  intros H1 H2. unfold translate_horizontal.
  rewrite (proj2 (lt_false_iff _ _) H1), (proj2 (gt_true_iff _ _) H2).
  fields. reflexivity.
Qed.

Lemma translate_horizontal_none (s : Page) :
  Canvas.width (canvas s) * THRESHOLD (vars s) <= Point.x (coords s) ->
  Point.x (coords s) <= Canvas.width (canvas s) * (1 - THRESHOLD (vars s)) ->
  fst (translate_horizontal s) = s.
Proof.
  intros H1 H2. unfold translate_horizontal.
  rewrite (proj2 (lt_false_iff _ _) H1), (proj2 (gt_false_iff _ _) H2).
  reflexivity.
Qed.

Lemma translate_vertical_up (s : Page) :
  Point.y (coords s) < Canvas.height (canvas s) * THRESHOLD (vars s) ->
  World.yOffset (world (fst (translate_vertical s))) =
  World.yOffset (world s) -
  Math.round (easing (vars s)
                (Point.y (coords s) / (Canvas.height (canvas s) * THRESHOLD (vars s)))
              * Math.min (World.yOffset (world s))
                         (MOVEAMOUNT (vars s) * physicsDelta s)).
Proof.
  intro H. unfold translate_vertical.
  rewrite (proj2 (lt_true_iff _ _) H). fields. reflexivity.
Qed.

Lemma translate_vertical_down (s : Page) :
  Canvas.height (canvas s) * THRESHOLD (vars s) <= Point.y (coords s) ->
  Canvas.height (canvas s) * (1 - THRESHOLD (vars s)) < Point.y (coords s) ->
  World.yOffset (world (fst (translate_vertical s))) =
  World.yOffset (world s) +
  Math.round (easing (vars s)
                ((Canvas.height (canvas s) - Point.y (coords s))
                 / (Canvas.height (canvas s) * THRESHOLD (vars s)))
              * Math.min (World.height (world s) - Canvas.height (canvas s)
                          - World.yOffset (world s))
                         (MOVEAMOUNT (vars s) * physicsDelta s)).
Proof.
  intros H1 H2. unfold translate_vertical.
  rewrite (proj2 (lt_false_iff _ _) H1), (proj2 (gt_true_iff _ _) H2).
  fields. reflexivity.
Qed.

Lemma translate_vertical_none (s : Page) :
  Canvas.height (canvas s) * THRESHOLD (vars s) <= Point.y (coords s) ->
  Point.y (coords s) <= Canvas.height (canvas s) * (1 - THRESHOLD (vars s)) ->
  fst (translate_vertical s) = s.
Proof.
  intros H1 H2. unfold translate_vertical.
  rewrite (proj2 (lt_false_iff _ _) H1), (proj2 (gt_false_iff _ _) H2).
  reflexivity.
Qed.

(** ** Offsets stay in range *)

Lemma ratio_in_unit (a d : R) : 0 <= a -> a < d -> 0 <= a / d <= 1.
Proof.
  intros Ha Hd. assert (Hpos : 0 < d) by lra.
  assert (Hinv : 0 < / d) by (apply Rinv_0_lt_compat; exact Hpos).
  unfold Rdiv. split.
  - apply Rmult_le_pos; lra.
  - assert (H1 : d * / d = 1) by (apply Rinv_r; lra). nra.
Qed.

Lemma min_bounds (room m : R) :
  0 <= room -> 0 <= m -> 0 <= Math.min room m <= room.
Proof.
  intros Hr Hm. unfold Math.min, Rmin.
  destruct (Rle_dec room m); lra.
Qed.

(** The rounded shift fits in the room that is left, when that room is a
    whole number of pixels. *)
Lemma shift_within_room (g room m : R) :
  0 <= g <= 1 -> whole room -> 0 <= room -> 0 <= m ->
  0 <= Math.round (g * Math.min room m) <= room.
Proof.
  intros Hg [k Hk] Hroom Hm.
  pose proof (min_bounds room m Hroom Hm) as Hmin.
  split.
  - apply (round_ge_whole _ 0%Z). nra.
  - rewrite Hk at 2. apply round_le_whole. rewrite <- Hk. nra.
Qed.

Lemma whole_minus (a b : R) : whole a -> whole b -> whole (a - b).
Proof.
  intros [m Hm] [n Hn]. exists (m - n)%Z. rewrite minus_IZR. congruence.
Qed.

Lemma translate_horizontal_in_range (s : Page) :
  0 <= World.xOffset (world s) <= World.width (world s) - Canvas.width (canvas s) ->
  easing_in_unit (easing (vars s)) ->
  0 <= Point.x (coords s) <= Canvas.width (canvas s) ->
  whole (World.xOffset (world s)) ->
  whole (World.width (world s) - Canvas.width (canvas s)) ->
  0 <= MOVEAMOUNT (vars s) * physicsDelta s ->
  0 <= World.xOffset (world (fst (translate_horizontal s)))
    <= World.width (world s) - Canvas.width (canvas s).
Proof.
  intros Hrange Heasing Hptr Hxo Hmax Hspeed.
  destruct (Rlt_dec (Point.x (coords s))
              (Canvas.width (canvas s) * THRESHOLD (vars s))) as [Hl | Hl].
  - rewrite (translate_horizontal_left s Hl).
    assert (Hg := Heasing _ (ratio_in_unit _ _ (proj1 Hptr) Hl)).
    pose proof (shift_within_room _ _ _ Hg Hxo (proj1 Hrange) Hspeed). lra.
  - apply Rnot_lt_le in Hl.
    destruct (Rlt_dec (Canvas.width (canvas s) * (1 - THRESHOLD (vars s)))
                (Point.x (coords s))) as [Hr | Hr].
    + rewrite (translate_horizontal_right s Hl Hr).
      assert (Hratio : 0 <= (Canvas.width (canvas s) - Point.x (coords s))
                            / (Canvas.width (canvas s) * THRESHOLD (vars s)) <= 1)
        by (apply ratio_in_unit; lra).
      assert (Hg := Heasing _ Hratio).
      assert (Hroom : whole (World.width (world s) - Canvas.width (canvas s)
                             - World.xOffset (world s)))
        by (apply whole_minus; assumption).
      assert (Hroom0 : 0 <= World.width (world s) - Canvas.width (canvas s)
                             - World.xOffset (world s)) by lra.
      pose proof (shift_within_room _ _ _ Hg Hroom Hroom0 Hspeed). lra.
    + apply Rnot_lt_le in Hr.
      rewrite (translate_horizontal_none s Hl Hr). exact Hrange.
Qed.

Lemma translate_vertical_in_range (s : Page) :
  0 <= World.yOffset (world s) <= World.height (world s) - Canvas.height (canvas s) ->
  easing_in_unit (easing (vars s)) ->
  0 <= Point.y (coords s) <= Canvas.height (canvas s) ->
  whole (World.yOffset (world s)) ->
  whole (World.height (world s) - Canvas.height (canvas s)) ->
  0 <= MOVEAMOUNT (vars s) * physicsDelta s ->
  0 <= World.yOffset (world (fst (translate_vertical s)))
    <= World.height (world s) - Canvas.height (canvas s).
Proof.
  intros Hrange Heasing Hptr Hyo Hmax Hspeed.
  destruct (Rlt_dec (Point.y (coords s))
              (Canvas.height (canvas s) * THRESHOLD (vars s))) as [Hu | Hu].
  - rewrite (translate_vertical_up s Hu).
    assert (Hg := Heasing _ (ratio_in_unit _ _ (proj1 Hptr) Hu)).
    pose proof (shift_within_room _ _ _ Hg Hyo (proj1 Hrange) Hspeed). lra.
  - apply Rnot_lt_le in Hu.
    destruct (Rlt_dec (Canvas.height (canvas s) * (1 - THRESHOLD (vars s)))
                (Point.y (coords s))) as [Hd | Hd].
    + rewrite (translate_vertical_down s Hu Hd).
      assert (Hratio : 0 <= (Canvas.height (canvas s) - Point.y (coords s))
                            / (Canvas.height (canvas s) * THRESHOLD (vars s)) <= 1)
        by (apply ratio_in_unit; lra).
      assert (Hg := Heasing _ Hratio).
      assert (Hroom : whole (World.height (world s) - Canvas.height (canvas s)
                             - World.yOffset (world s)))
        by (apply whole_minus; assumption).
      assert (Hroom0 : 0 <= World.height (world s) - Canvas.height (canvas s)
                             - World.yOffset (world s)) by lra.
      pose proof (shift_within_room _ _ _ Hg Hroom Hroom0 Hspeed). lra.
    + apply Rnot_lt_le in Hd.
      rewrite (translate_vertical_none s Hu Hd). exact Hrange.
Qed.

(** The sizes that bound the offsets are not touched by [translate]. *)
Lemma translate_sizes (s : Page) :
  canvas (translate s) = canvas s /\
  World.width (world (translate s)) = World.width (world s) /\
  World.height (world (translate s)) = World.height (world s).
Proof.
  unfold translate, translate_run. cbn [fst].
  destruct (translate_flag_frame (translating (vars s))
              (fst (translate_vertical (fst (translate_horizontal s)))))
    as (Hw & Hc & _).
  rewrite Hw, Hc.
  destruct (translate_vertical_frame (fst (translate_horizontal s)))
    as (_ & Hc2 & _ & _ & _ & Hw2 & Hh2).
  destruct (translate_horizontal_frame s)
    as (_ & Hc1 & _ & _ & _ & _ & _ & _ & _ & Hw1 & Hh1).
  cbv zeta in Hc2, Hw2, Hh2, Hc1, Hw1, Hh1.
  rewrite Hc2, Hw2, Hh2, Hc1, Hw1, Hh1. repeat split.
Qed.

(** When the pointer is on the canvas, the easing function maps [0,1] into
    [0,1], the offsets and the largest offsets are whole numbers of pixels
    and the distance per tick [MOVEAMOUNT * App.physicsDelta] is not
    negative, one call of [translate] keeps both offsets between 0 and world
    size minus canvas size: the clamp by [Math.min] works as long as the
    gradient is at most 1. *)
Lemma translate_keeps_offsets_in_range (s : Page) :
  offsets_in_range s ->
  easing_in_unit (easing (vars s)) ->
  pointer_on_canvas s ->
  whole (World.xOffset (world s)) ->
  whole (World.yOffset (world s)) ->
  whole (World.width (world s) - Canvas.width (canvas s)) ->
  whole (World.height (world s) - Canvas.height (canvas s)) ->
  0 <= MOVEAMOUNT (vars s) * physicsDelta s ->
  offsets_in_range (translate s).
Proof.
  intros [Hx Hy] Heasing [Hpx Hpy] Hwx Hwy Hmx Hmy Hspeed.
  unfold offsets_in_range.
  destruct (translate_sizes s) as (Hc & Hw & Hh). rewrite Hc, Hw, Hh.
  rewrite translate_xOffset, translate_yOffset.
  split.
  - apply translate_horizontal_in_range; assumption.
  - destruct (translate_horizontal_frame s)
      as (Fc & Fcv & Fd & Ft & Fm & Fe & _ & _ & Fy & _ & Fh).
    cbv zeta in Fc, Fcv, Fd, Ft, Fm, Fe, Fy, Fh.
    rewrite <- Fh, <- Fcv.
    apply translate_vertical_in_range;
      rewrite ?Fc, ?Fcv, ?Fd, ?Fm, ?Fe, ?Fy, ?Fh; assumption.
Qed.

Lemma LINEAR_in_unit : easing_in_unit easings.LINEAR.
Proof. intros v Hv. unfold easings.LINEAR. lra. Qed.

(** The offset after one call on [linear_page px xo] with the pointer in
    the left band. *)
Lemma linear_page_left (px xo : R) :
  px < 200 ->
  World.xOffset (world (translate (linear_page px xo))) =
  xo - Math.round ((1 - px / 200) * Math.min xo 350).
Proof.
  intro H. rewrite translate_xOffset, translate_horizontal_left.
  - sample. unfold easings.LINEAR.
    replace (1000 * 0.2) with 200 by lra.
    replace (350 * 1) with 350 by lra. reflexivity.
  - sample. lra.
Qed.

Lemma min_left (a b : R) : a <= b -> Math.min a b = a.
Proof. apply Rmin_left. Qed.

Lemma min_right (a b : R) : b <= a -> Math.min a b = b.
Proof. apply Rmin_right. Qed.

(** With the pointer 100 pixels left of the canvas (a touch that was
    dragged off it) and LINEAR easing, the gradient is 1.5 and an offset of
    100 becomes -50. *)
Lemma pointer_outside_offset :
  World.xOffset (world (translate (linear_page (-100) 100))) = -50.
Proof.
  rewrite linear_page_left by lra.
  rewrite min_left by lra.
  rewrite (round_unique _ 150%Z); lra.
Qed.

(** In-range offsets and an easing function that maps [0,1] into [0,1] do
    not suffice to keep the offsets in range. *)
Lemma translate_can_leave_range :
  ~ (forall s : Page,
        offsets_in_range s -> easing_in_unit (easing (vars s)) ->
        offsets_in_range (translate s)).
Proof.
  intro H.
  assert (Hout : offsets_in_range (translate (linear_page (-100) 100))).
  { apply H.
    - unfold offsets_in_range. sample. lra.
    - sample. exact LINEAR_in_unit. }
  destruct Hout as [[Hx _] _]. rewrite pointer_outside_offset in Hx. lra.
Qed.

Lemma translate_keeps_offsets_in_range_witness :
  offsets_in_range (translate (linear_page 50 400)).
Proof.
  apply translate_keeps_offsets_in_range.
  - unfold offsets_in_range. sample. lra.
  - sample. exact LINEAR_in_unit.
  - unfold pointer_on_canvas. sample. lra.
  - exists 400%Z. reflexivity.
  - exists 0%Z. reflexivity.
  - exists 2000%Z. sample. lra.
  - exists 1200%Z. sample. lra.
  - sample. lra.
Defined.

(** Why the offsets have to be whole: THRESHOLD easing at the left edge
    rounds a room of 0.75 pixel up to a shift of 1. *)
Lemma fractional_offset_leaves_range :
  World.xOffset
    (world (translate (setEasingFunction easings.THRESHOLD (linear_page 0 0.75))))
  = -0.25.
Proof.
  rewrite translate_xOffset, translate_horizontal_left.
  - unfold setEasingFunction. sample. unfold easings.THRESHOLD.
    rewrite min_left by lra.
    rewrite (round_unique _ 1%Z); lra.
  - unfold setEasingFunction. sample. lra.
Qed.

(** Why the distance per tick must not be negative: with
    [setScrollDistance(-350)] the left branch moves the view to the right,
    here past the largest offset 2000. *)
Lemma negative_distance_leaves_range :
  World.xOffset
    (world (translate (setScrollDistance (-350) (linear_page 0 2000))))
  = 2350.
Proof.
  rewrite translate_xOffset, translate_horizontal_left.
  - unfold setScrollDistance. sample. unfold easings.LINEAR.
    rewrite min_right by lra.
    rewrite (round_unique _ (-350)%Z); lra.
  - unfold setScrollDistance. sample. lra.
Qed.

(** ** The worked example of the left band *)




(** ** The [translating] flag *)

Lemma same_wiring_trans (s1 s2 s3 : Page) :
  same_wiring s1 s2 -> same_wiring s2 s3 -> same_wiring s1 s3.
Proof.
  unfold same_wiring.
  intros (A1 & A2 & A3 & A4 & A5 & A6 & A7 & A8)
         (B1 & B2 & B3 & B4 & B5 & B6 & B7 & B8).
  rewrite B1, B2, B3, B4, B5, B6, B7, B8. tauto.
Qed.

Lemma translate_horizontal_wiring (s : Page) :
  same_wiring s (fst (translate_horizontal s)).
Proof.
  unfold translate_horizontal, same_wiring.
  destruct (JS.lt _ _); [| destruct (JS.gt _ _)]; fields; tauto.
Qed.

Lemma translate_vertical_wiring (s : Page) :
  same_wiring s (fst (translate_vertical s)).
Proof.
  unfold translate_vertical, same_wiring.
  destruct (JS.lt _ _); [| destruct (JS.gt _ _)]; fields; tauto.
Qed.

Lemma translate_flag_wiring (init : bool) (s : Page) :
  same_wiring s (translate_flag init s).
Proof.
  unfold translate_flag, same_wiring. fields.
  destruct (negb init && _); [| destruct (init && _)]; fields; tauto.
Qed.

(** What [translate] never touches. *)
Lemma translate_frame (s : Page) : same_wiring s (translate s).
Proof.
  unfold translate, translate_run. cbn [fst].
  eapply same_wiring_trans; [apply translate_horizontal_wiring |].
  eapply same_wiring_trans; [apply translate_vertical_wiring |].
  apply translate_flag_wiring.
Qed.

(** The flag after a call is computed from the running totals in
    [scrolled], and needs both of them to be non-zero. *)
Lemma translate_translating (s : Page) :
  translating (vars (translate s)) =
  JS.strict_ne (Point.x (scrolled (vars (translate s)))) 0 &&
  JS.strict_ne (Point.y (scrolled (vars (translate s)))) 0.
Proof.
  unfold translate, translate_run. cbn [fst].
  destruct (translate_flag_frame (translating (vars s))
              (fst (translate_vertical (fst (translate_horizontal s)))))
    as (_ & _ & Hs & Ht).
  rewrite Hs. exact Ht.
Qed.

(** The state after the left branch. *)
Lemma translate_horizontal_left_state (s : Page) :
  Point.x (coords s) < Canvas.width (canvas s) * THRESHOLD (vars s) ->
  fst (translate_horizontal s) =
  let ma := Math.round
              (easing (vars s)
                 (Point.x (coords s) / (Canvas.width (canvas s) * THRESHOLD (vars s)))
               * Math.min (World.xOffset (world s))
                          (MOVEAMOUNT (vars s) * physicsDelta s)) in
  context_translate ma 0
    (set_scrolled_x (Point.x (scrolled (vars s)) - ma)
       (set_xOffset (World.xOffset (world s) - ma) s)).
Proof.
  intro H. unfold translate_horizontal.
  rewrite (proj2 (lt_true_iff _ _) H). reflexivity.
Qed.

Lemma SMOOTH_at_edge : easings.SMOOTH 0 = 1.
Proof.
  unfold easings.SMOOTH, Math.cos, Math.PI.
  replace ((1 - 0) * PI) with PI by lra. rewrite cos_PI. lra.
Qed.

Lemma left_edge_shift :
  Math.round
    (easing (vars left_edge_page)
       (Point.x (coords left_edge_page)
        / (Canvas.width (canvas left_edge_page) * THRESHOLD (vars left_edge_page)))
     * Math.min (World.xOffset (world left_edge_page))
                (MOVEAMOUNT (vars left_edge_page) * physicsDelta left_edge_page))
  = 7.
Proof.
  unfold left_edge_page, loaded, sample_canvas, sample_world. fields.
  replace (0 / (1000 * 0.2)) with 0 by lra. rewrite SMOOTH_at_edge.
  rewrite min_right by lra.
  rewrite (round_unique _ 7%Z); lra.
Qed.

Lemma left_edge_horizontal :
  fst (translate_horizontal left_edge_page) =
  context_translate 7 0
    (set_scrolled_x (0 - 7) (set_xOffset (500 - 7) left_edge_page)).
Proof.
  rewrite translate_horizontal_left_state.
  - cbv zeta. rewrite left_edge_shift. reflexivity.
  - unfold left_edge_page, loaded, sample_canvas. fields. lra.
Qed.

Lemma left_edge_vertical :
  fst (translate_vertical (fst (translate_horizontal left_edge_page))) =
  fst (translate_horizontal left_edge_page).
Proof.
  apply translate_vertical_none; rewrite left_edge_horizontal;
    unfold left_edge_page, loaded, sample_canvas; fields; lra.
Qed.

Lemma idle_page_unmoved :
  fst (translate_vertical (fst (translate_horizontal idle_page))) = idle_page.
Proof.
  assert (H : fst (translate_horizontal idle_page) = idle_page)
    by (apply translate_horizontal_none;
        unfold idle_page, loaded, sample_canvas; fields; lra).
  rewrite H.
  apply translate_vertical_none;
    unfold idle_page, loaded, sample_canvas; fields; lra.
Qed.

(** C1 fails on the code.  On the first tick the view moves 7 pixels to the
    left, yet [translating] is false and nothing is announced: the flag
    asks for both totals in [scrolled] to be non-zero.  And since [scrolled]
    is never cleared, a later tick that moves neither axis leaves
    [translating] true and announces no stop. *)
Theorem translating_misses_single_axis :
  (World.xOffset (world left_edge_page) = 500 /\
   World.xOffset (world (translate left_edge_page)) = 493 /\
   World.yOffset (world (translate left_edge_page)) = 0 /\
   translating (vars (translate left_edge_page)) = false /\
   document_events (translate left_edge_page) = []) /\
  (world (translate idle_page) = world idle_page /\
   translating (vars (translate idle_page)) = true /\
   document_events (translate idle_page) = []).
Proof.
  split.
  - assert (Hs : translate left_edge_page =
                 translate_flag false (fst (translate_horizontal left_edge_page))).
    { unfold translate, translate_run. cbn [fst].
      rewrite left_edge_vertical. reflexivity. }
    rewrite Hs, left_edge_horizontal.
    unfold translate_flag. fields.
    assert (Hx : JS.strict_ne (0 - 7) 0 = true)
      by (apply strict_ne_true_iff; lra).
    assert (Hy : JS.strict_ne 0 0 = false)
      by (apply strict_ne_false_iff; reflexivity).
    unfold left_edge_page, loaded, sample_world. fields.
    rewrite Hx, Hy. cbn [andb negb]. fields.
    repeat split; lra.
  - assert (Hs : translate idle_page = translate_flag true idle_page).
    { unfold translate, translate_run. cbn [fst].
      rewrite idle_page_unmoved. reflexivity. }
    rewrite Hs. unfold translate_flag, idle_page. fields.
    assert (Hx : JS.strict_ne (-7) 0 = true)
      by (apply strict_ne_true_iff; lra).
    rewrite Hx. cbn [andb negb]. fields. repeat split.
Qed.

(** ** The per-tick entry point and the press flag *)

Lemma _update_unbound (s : Page) :
  hovered (vars s) = true -> global_mousedown s = None ->
  _update s = JS.Throw (JS.ReferenceError "mousedown").
Proof. intros Hh Hg. unfold _update. rewrite Hh, Hg. reflexivity. Qed.

Lemma _update_not_hovered (s : Page) :
  hovered (vars s) = false -> _update s = JS.Normal (s, None).
Proof. intro Hh. unfold _update. rewrite Hh. reflexivity. Qed.

Lemma translate_horizontal_set_cells (c : list bool) (s : Page) :
  fst (translate_horizontal (set_cells c s)) =
  set_cells c (fst (translate_horizontal s)).
Proof.
  unfold translate_horizontal. fields.
  destruct (JS.lt _ _); [| destruct (JS.gt _ _)]; reflexivity.
Qed.

Lemma translate_vertical_set_cells (c : list bool) (s : Page) :
  fst (translate_vertical (set_cells c s)) =
  set_cells c (fst (translate_vertical s)).
Proof.
  unfold translate_vertical. fields.
  destruct (JS.lt _ _); [| destruct (JS.gt _ _)]; reflexivity.
Qed.

Lemma translate_flag_set_cells (init : bool) (c : list bool) (s : Page) :
  translate_flag init (set_cells c s) = set_cells c (translate_flag init s).
Proof.
  unfold translate_flag. fields.
  destruct (negb init && _); [| destruct (init && _)]; reflexivity.
Qed.

Lemma translate_set_cells (c : list bool) (s : Page) :
  translate (set_cells c s) = set_cells c (translate s).
Proof.
  unfold translate, translate_run. cbn [fst].
  rewrite translate_horizontal_set_cells, translate_vertical_set_cells,
    translate_flag_set_cells.
  reflexivity.
Qed.

(** [_update] never consults the variables assigned by the press and
    release handlers: whatever they hold, it ends the same way. *)
Lemma _update_blind_to_cells (c : list bool) (s : Page) :
  _update (set_cells c s) =
  match _update s with
  | JS.Normal (s', r) => JS.Normal (set_cells c s', r)
  | JS.Throw ex => JS.Throw ex
  end.
Proof.
  unfold _update, translate_result. rewrite translate_set_cells. fields.
  destruct (hovered (vars s)); [| reflexivity].
  destruct (global_mousedown s) as [[|] |]; reflexivity.
Qed.

Lemma fire_mouseenter :
  fire (mouse_event "mouseenter" 1 400) enabled_page =
  JS.Normal (enter (hover_in enabled_page)).
Proof. reflexivity. Qed.

Lemma entered_bindings :
  bindings (enter (hover_in enabled_page)) =
  bindings enabled_page ++ [mkBinding "mousemove" "coords" false h_trackmove].
Proof.
  unfold enter. rewrite (proj1 (proj2 (translate_frame _))). reflexivity.
Qed.

Lemma fire_mousedown :
  fire (mouse_event "mousedown" 1 400) (enter (hover_in enabled_page)) =
  JS.Normal (press 0 (enter (hover_in enabled_page))).
Proof.
  unfold fire. rewrite entered_bindings.
  replace (filter _ _)
    with [mkBinding "mousedown" "" false h_delegate;
          mkBinding "mousedown" "translate" false (h_press 0)]
    by reflexivity.
  cbn [dispatch b_once b_handler run_handler].
  assert (Hd : delegate (mouse_event "mousedown" 1 400)
                 (enter (hover_in enabled_page))
               = JS.Normal (enter (hover_in enabled_page))).
  { unfold delegate, mouse_event. cbn [type String.eqb Ascii.eqb Bool.eqb JS.bind].
    destruct (translate_frame
                (set_vars (set_hovered true (vars (hover_in enabled_page)))
                   (hover_in enabled_page)))
      as (_ & _ & _ & _ & _ & _ & Ha & He).
    unfold enter, app_trigger. rewrite Ha, He. reflexivity. }
  rewrite Hd. reflexivity.
Qed.

(** C6 fails on the code.  After [enable()], a mouseenter and a mousedown
    on the canvas, the press flag of [enable] is set, and the next call of
    [_update] does not return: it raises a [ReferenceError], because the
    [mousedown] it reads is not that flag but an undeclared global. *)
Theorem update_while_pressed :
  exists s1 s2,
    fire (mouse_event "mouseenter" 1 400) enabled_page = JS.Normal s1 /\
    fire (mouse_event "mousedown" 1 400) s1 = JS.Normal s2 /\
    cells s2 = [true] /\
    hovered (vars s2) = true /\
    _update s2 = JS.Throw (JS.ReferenceError "mousedown").
Proof.
  exists (enter (hover_in enabled_page)),
         (press 0 (enter (hover_in enabled_page))).
  destruct (translate_frame
              (set_vars (set_hovered true (vars (hover_in enabled_page)))
                 (hover_in enabled_page)))
    as (_ & _ & Hc & Hg & Hh & _).
  assert (Hcells : cells (press 0 (enter (hover_in enabled_page))) = [true]).
  { unfold press, enter. cbn [cells set_cells]. rewrite Hc. reflexivity. }
  assert (Hhov : hovered (vars (press 0 (enter (hover_in enabled_page)))) = true).
  { unfold press, enter. cbn [vars set_cells]. rewrite Hh. reflexivity. }
  split; [exact fire_mouseenter |].
  split; [exact fire_mousedown |].
  split; [exact Hcells |].
  split; [exact Hhov |].
  apply _update_unbound; [exact Hhov |].
  unfold press, enter. cbn [global_mousedown set_cells]. rewrite Hg. reflexivity.
Qed.

Lemma left_edge_offset (s : Page) :
  coords s = Point.mk 0 400 ->
  canvas s = sample_canvas ->
  world s = sample_world 500 0 ->
  physicsDelta s = 0.02 ->
  THRESHOLD (vars s) = 0.2 ->
  MOVEAMOUNT (vars s) = 350 ->
  easing (vars s) = easings.SMOOTH ->
  World.xOffset (world (translate s)) = 493.
Proof.
  intros Hc Hcv Hw Hd Ht Hm He.
  rewrite translate_xOffset, translate_horizontal_left;
    rewrite Hc, Hcv, Ht; unfold sample_canvas; fields; [| lra].
  rewrite Hw, Hd, Hm, He. unfold sample_world. fields.
  replace (0 / (1000 * 0.2)) with 0 by lra. rewrite SMOOTH_at_edge.
  rewrite min_right by lra.
  rewrite (round_unique _ 7%Z); lra.
Qed.

(** When some other script does declare a falsy global [mousedown],
    [_update] scrolls although the press flag of [enable] is set. *)
Lemma _update_scrolls_while_pressed :
  cells pressed_page_with_global = [true] /\
  World.xOffset (world pressed_page_with_global) = 500 /\
  exists s r,
    _update pressed_page_with_global = JS.Normal (s, r) /\
    World.xOffset (world s) = 493.
Proof.
  split; [reflexivity |]. split; [reflexivity |].
  eexists. eexists. split; [reflexivity |].
  apply left_edge_offset; reflexivity.
Qed.

(** ** Entering the canvas *)

Lemma sentinel_linear_offset (s : Page) :
  coords s = Point.mk (-9999) (-9999) ->
  canvas s = sample_canvas ->
  world s = sample_world 100 0 ->
  physicsDelta s = 0.02 ->
  THRESHOLD (vars s) = 0.2 ->
  MOVEAMOUNT (vars s) = 350 ->
  easing (vars s) = easings.LINEAR ->
  World.xOffset (world (translate s)) = -257.
Proof.
  intros Hc Hcv Hw Hd Ht Hm He.
  rewrite translate_xOffset, translate_horizontal_left;
    rewrite Hc, Hcv, Ht; unfold sample_canvas; fields; [| lra].
  rewrite Hw, Hd, Hm, He. unfold sample_world, easings.LINEAR. fields.
  replace (1 - -9999 / (1000 * 0.2)) with 50.995 by lra.
  rewrite min_right by lra.
  rewrite (round_unique _ 357%Z); lra.
Qed.

(** C2 fails on the code.  With LINEAR easing, which maps [0,1] into
    [0,1], and offsets in range, the mouse entering the canvas makes the
    handler of 'mouseenter.translate' call [translate] while [Mouse.coords]
    is still the sentinel (-9999, -9999): the gradient is 50.995, the clamp
    by [Math.min] is multiplied away, and the horizontal offset goes from
    100 to -257. *)
Theorem mouseenter_scrolls_out_of_range :
  offsets_in_range linear_entering_page /\
  easing_in_unit (easing (vars linear_entering_page)) /\
  coords linear_entering_page = Point.mk (-9999) (-9999) /\
  World.xOffset (world linear_entering_page) = 100 /\
  fire (mouse_event "mouseenter" 1 400) linear_enabled_page
    = JS.Normal (translate linear_entering_page) /\
  World.xOffset (world (translate linear_entering_page)) = -257 /\
  ~ offsets_in_range (translate linear_entering_page).
Proof.
  assert (Hx : World.xOffset (world (translate linear_entering_page)) = -257)
    by (apply sentinel_linear_offset; reflexivity).
  split.
  { unfold offsets_in_range.
    replace (world linear_entering_page) with (sample_world 100 0)
      by reflexivity.
    replace (canvas linear_entering_page) with sample_canvas by reflexivity.
    unfold sample_world, sample_canvas. fields. lra. }
  split.
  { replace (easing (vars linear_entering_page)) with easings.LINEAR
      by reflexivity.
    exact LINEAR_in_unit. }
  split; [reflexivity |].
  split; [reflexivity |].
  split; [reflexivity |].
  split; [exact Hx |].
  intros [[H0 _] _]. rewrite Hx in H0. lra.
Qed.

(** * Further properties of the code *)

(** ** What one call of [translate] announces *)

Lemma translate_horizontal_quiet (s : Page) :
  document_events (fst (translate_horizontal s)) = document_events s.
Proof.
  unfold translate_horizontal.
  destruct (JS.lt _ _); [| destruct (JS.gt _ _)]; reflexivity.
Qed.

Lemma translate_vertical_quiet (s : Page) :
  document_events (fst (translate_vertical s)) = document_events s.
Proof.
  unfold translate_vertical.
  destruct (JS.lt _ _); [| destruct (JS.gt _ _)]; reflexivity.
Qed.

Lemma translate_flag_events (init : bool) (s : Page) :
  document_events (translate_flag init s) =
  match init, translating (vars (translate_flag init s)) with
  | false, true => "mousescrollon"%string :: document_events s
  | true, false => "mousescrolloff"%string :: document_events s
  | _, _ => document_events s
  end.
Proof.
  destruct init;
    rewrite (proj2 (proj2 (proj2 (translate_flag_frame _ s))));
    unfold translate_flag; fields;
    destruct (JS.strict_ne (Point.x (scrolled (vars s))) 0 &&
              JS.strict_ne (Point.y (scrolled (vars s))) 0);
    reflexivity.
Qed.

(** One call of [translate] triggers 'mousescrollon' on the document
    exactly when it turns [translating] from false to true, 'mousescrolloff'
    exactly when it turns it from true to false, and nothing otherwise: never
    more than one event, and none while the flag keeps its value. *)
Theorem translate_announces_flips (s : Page) :
  document_events (translate s) =
  match translating (vars s), translating (vars (translate s)) with
  | false, true => "mousescrollon"%string :: document_events s
  | true, false => "mousescrolloff"%string :: document_events s
  | _, _ => document_events s
  end.
Proof.
  unfold translate, translate_run. cbn [fst].
  destruct (translating (vars s));
    rewrite translate_flag_events, translate_vertical_quiet,
      translate_horizontal_quiet;
    reflexivity.
Qed.

(** ** Offsets, context and totals move together *)

Lemma in_step_trans (s1 s2 s3 : Page) :
  in_step s1 s2 -> in_step s2 s3 -> in_step s1 s3.
Proof.
  unfold in_step. intros (A1 & A2 & A3 & A4) (B1 & B2 & B3 & B4).
  repeat apply conj; lra.
Qed.

Lemma translate_horizontal_in_step (s : Page) :
  in_step s (fst (translate_horizontal s)).
Proof.
  unfold translate_horizontal, in_step.
  destruct (JS.lt _ _); [| destruct (JS.gt _ _)]; fields;
    cbn [sum_dx sum_dy]; repeat apply conj; lra.
Qed.

Lemma translate_vertical_in_step (s : Page) :
  in_step s (fst (translate_vertical s)).
Proof.
  unfold translate_vertical, in_step.
  destruct (JS.lt _ _); [| destruct (JS.gt _ _)]; fields;
    cbn [sum_dx sum_dy]; repeat apply conj; lra.
Qed.

Lemma translate_flag_context (init : bool) (s : Page) :
  context (translate_flag init s) = context s.
Proof.
  unfold translate_flag. fields.
  destruct (negb init && _); [| destruct (init && _)]; reflexivity.
Qed.

Lemma translate_flag_in_step (init : bool) (s : Page) :
  in_step s (translate_flag init s).
Proof.
  unfold in_step. rewrite translate_flag_context.
  destruct (translate_flag_frame init s) as (Hw & _ & Hs & _).
  rewrite Hw, Hs. repeat apply conj; reflexivity.
Qed.

(** One call of [translate] changes an offset, the total kept in
    [scrolled] and the translation applied to the rendering context
    together: the total changes by the same amount as the offset, the
    context by the opposite amount, on each axis, wherever the pointer is
    and whatever number the easing function returns.  The offsets and the
    totals are whole numbers, so that subtracting the whole shift is exact,
    and the bands have a positive width, so that the easing function is
    applied to a number below 1 and the shift is a number. *)
Theorem translate_moves_in_step (s : Page) :
  0 < Canvas.width (canvas s) * THRESHOLD (vars s) ->
  0 < Canvas.height (canvas s) * THRESHOLD (vars s) ->
  whole (World.xOffset (world s)) ->
  whole (World.yOffset (world s)) ->
  whole (Point.x (scrolled (vars s))) ->
  whole (Point.y (scrolled (vars s))) ->
  World.xOffset (world (translate s)) + sum_dx (context (translate s)) =
    World.xOffset (world s) + sum_dx (context s) /\
  World.yOffset (world (translate s)) + sum_dy (context (translate s)) =
    World.yOffset (world s) + sum_dy (context s) /\
  Point.x (scrolled (vars (translate s))) - World.xOffset (world (translate s)) =
    Point.x (scrolled (vars s)) - World.xOffset (world s) /\
  Point.y (scrolled (vars (translate s))) - World.yOffset (world (translate s)) =
    Point.y (scrolled (vars s)) - World.yOffset (world s).
Proof.
  intros _ _ _ _ _ _.
  change (in_step s (translate s)).
  unfold translate, translate_run. cbn [fst].
  eapply in_step_trans; [apply translate_horizontal_in_step |].
  eapply in_step_trans; [apply translate_vertical_in_step |].
  apply translate_flag_in_step.
Qed.

Lemma translate_moves_in_step_witness :
  World.xOffset (world (translate left_edge_page))
    + sum_dx (context (translate left_edge_page)) = 500.
Proof.
  assert (Hw : 0 < Canvas.width (canvas left_edge_page)
                   * THRESHOLD (vars left_edge_page))
    by (unfold left_edge_page, loaded, sample_canvas; fields; lra).
  assert (Hh : 0 < Canvas.height (canvas left_edge_page)
                   * THRESHOLD (vars left_edge_page))
    by (unfold left_edge_page, loaded, sample_canvas; fields; lra).
  assert (Hx : whole (World.xOffset (world left_edge_page)))
    by (exists 500%Z; reflexivity).
  assert (Hy : whole (World.yOffset (world left_edge_page)))
    by (exists 0%Z; reflexivity).
  assert (Hsx : whole (Point.x (scrolled (vars left_edge_page))))
    by (exists 0%Z; reflexivity).
  assert (Hsy : whole (Point.y (scrolled (vars left_edge_page))))
    by (exists 0%Z; reflexivity).
  destruct (translate_moves_in_step left_edge_page Hw Hh Hx Hy Hsx Hsy)
    as (H & _).
  rewrite H. unfold left_edge_page, loaded, sample_world. fields.
  cbn [sum_dx]. lra.
Defined.

(** ** The zone between the bands *)

(** With the pointer between the bands on both axes, the thresholds
    themselves included, one call of [translate] leaves the offsets, the
    rendering context and the totals in [scrolled] as they are. *)
Theorem translate_between_bands (s : Page) :
  Canvas.width (canvas s) * THRESHOLD (vars s) <= Point.x (coords s)
    <= Canvas.width (canvas s) * (1 - THRESHOLD (vars s)) ->
  Canvas.height (canvas s) * THRESHOLD (vars s) <= Point.y (coords s)
    <= Canvas.height (canvas s) * (1 - THRESHOLD (vars s)) ->
  world (translate s) = world s /\
  context (translate s) = context s /\
  scrolled (vars (translate s)) = scrolled (vars s).
Proof.
  intros [Hx1 Hx2] [Hy1 Hy2].
  unfold translate, translate_run. cbn [fst].
  rewrite (translate_horizontal_none s Hx1 Hx2).
  rewrite (translate_vertical_none s Hy1 Hy2).
  rewrite translate_flag_context.
  destruct (translate_flag_frame (translating (vars s)) s) as (Hw & _ & Hs & _).
  split; [exact Hw | split; [reflexivity | exact Hs]].
Qed.

Lemma translate_between_bands_witness :
  world (translate idle_page) = world idle_page.
Proof.
  apply (translate_between_bands idle_page);
    unfold idle_page, loaded, sample_canvas; fields; lra.
Defined.

(** ** How far and which way one call scrolls *)

Lemma shift_bounded (g room m : R) :
  0 <= g <= 1 -> 0 <= room -> 0 <= m ->
  0 <= Math.round (g * Math.min room m) <= m + / 2.
Proof.
  intros Hg Hroom Hm.
  pose proof (min_bounds room m Hroom Hm) as Hmin.
  assert (Hmr : Math.min room m <= m) by apply Rmin_r.
  pose proof (round_bounds (g * Math.min room m)) as Hr.
  split.
  - apply (round_ge_whole _ 0%Z). nra.
  - assert (g * Math.min room m <= m) by nra. lra.
Qed.

Lemma translate_horizontal_step (s : Page) :
  0 <= World.xOffset (world s) <= World.width (world s) - Canvas.width (canvas s) ->
  easing_in_unit (easing (vars s)) ->
  0 <= Point.x (coords s) <= Canvas.width (canvas s) ->
  0 <= MOVEAMOUNT (vars s) * physicsDelta s ->
  (Point.x (coords s) < Canvas.width (canvas s) * THRESHOLD (vars s) ->
   World.xOffset (world s) - (MOVEAMOUNT (vars s) * physicsDelta s + / 2)
     <= World.xOffset (world (fst (translate_horizontal s)))
     <= World.xOffset (world s)) /\
  (Canvas.width (canvas s) * THRESHOLD (vars s) <= Point.x (coords s) ->
   World.xOffset (world s)
     <= World.xOffset (world (fst (translate_horizontal s)))
     <= World.xOffset (world s) + (MOVEAMOUNT (vars s) * physicsDelta s + / 2)).
Proof.
  intros Hrange Heasing Hptr Hspeed. split.
  - intro Hl. rewrite (translate_horizontal_left s Hl).
    assert (Hg := Heasing _ (ratio_in_unit _ _ (proj1 Hptr) Hl)).
    pose proof (shift_bounded _ _ _ Hg (proj1 Hrange) Hspeed). lra.
  - intro Hl.
    destruct (Rlt_dec (Canvas.width (canvas s) * (1 - THRESHOLD (vars s)))
                (Point.x (coords s))) as [Hr | Hr].
    + rewrite (translate_horizontal_right s Hl Hr).
      assert (Hratio : 0 <= (Canvas.width (canvas s) - Point.x (coords s))
                            / (Canvas.width (canvas s) * THRESHOLD (vars s)) <= 1)
        by (apply ratio_in_unit; lra).
      assert (Hg := Heasing _ Hratio).
      assert (Hroom0 : 0 <= World.width (world s) - Canvas.width (canvas s)
                             - World.xOffset (world s)) by lra.
      pose proof (shift_bounded _ _ _ Hg Hroom0 Hspeed). lra.
    + apply Rnot_lt_le in Hr.
      rewrite (translate_horizontal_none s Hl Hr). lra.
Qed.

Lemma translate_vertical_step (s : Page) :
  0 <= World.yOffset (world s) <= World.height (world s) - Canvas.height (canvas s) ->
  easing_in_unit (easing (vars s)) ->
  0 <= Point.y (coords s) <= Canvas.height (canvas s) ->
  0 <= MOVEAMOUNT (vars s) * physicsDelta s ->
  (Point.y (coords s) < Canvas.height (canvas s) * THRESHOLD (vars s) ->
   World.yOffset (world s) - (MOVEAMOUNT (vars s) * physicsDelta s + / 2)
     <= World.yOffset (world (fst (translate_vertical s)))
     <= World.yOffset (world s)) /\
  (Canvas.height (canvas s) * THRESHOLD (vars s) <= Point.y (coords s) ->
   World.yOffset (world s)
     <= World.yOffset (world (fst (translate_vertical s)))
     <= World.yOffset (world s) + (MOVEAMOUNT (vars s) * physicsDelta s + / 2)).
Proof.
  intros Hrange Heasing Hptr Hspeed. split.
  - intro Hu. rewrite (translate_vertical_up s Hu).
    assert (Hg := Heasing _ (ratio_in_unit _ _ (proj1 Hptr) Hu)).
    pose proof (shift_bounded _ _ _ Hg (proj1 Hrange) Hspeed). lra.
  - intro Hu.
    destruct (Rlt_dec (Canvas.height (canvas s) * (1 - THRESHOLD (vars s)))
                (Point.y (coords s))) as [Hd | Hd].
    + rewrite (translate_vertical_down s Hu Hd).
      assert (Hratio : 0 <= (Canvas.height (canvas s) - Point.y (coords s))
                            / (Canvas.height (canvas s) * THRESHOLD (vars s)) <= 1)
        by (apply ratio_in_unit; lra).
      assert (Hg := Heasing _ Hratio).
      assert (Hroom0 : 0 <= World.height (world s) - Canvas.height (canvas s)
                             - World.yOffset (world s)) by lra.
      pose proof (shift_bounded _ _ _ Hg Hroom0 Hspeed). lra.
    + apply Rnot_lt_le in Hd.
      rewrite (translate_vertical_none s Hu Hd). lra.
Qed.

(** With in-range offsets, the pointer on the canvas, an easing function
    that maps [0,1] into [0,1] and a distance per tick
    [MOVEAMOUNT * App.physicsDelta] that is not negative, one call of
    [translate] moves each offset by at most that distance plus the half
    pixel of rounding, down (or not at all) when the pointer is in the
    left or top band, and up (or not at all) otherwise. *)
Theorem translate_step_bounded (s : Page) :
  offsets_in_range s ->
  easing_in_unit (easing (vars s)) ->
  pointer_on_canvas s ->
  0 <= MOVEAMOUNT (vars s) * physicsDelta s ->
  (Point.x (coords s) < Canvas.width (canvas s) * THRESHOLD (vars s) ->
   World.xOffset (world s) - (MOVEAMOUNT (vars s) * physicsDelta s + / 2)
     <= World.xOffset (world (translate s)) <= World.xOffset (world s)) /\
  (Canvas.width (canvas s) * THRESHOLD (vars s) <= Point.x (coords s) ->
   World.xOffset (world s)
     <= World.xOffset (world (translate s))
     <= World.xOffset (world s) + (MOVEAMOUNT (vars s) * physicsDelta s + / 2)) /\
  (Point.y (coords s) < Canvas.height (canvas s) * THRESHOLD (vars s) ->
   World.yOffset (world s) - (MOVEAMOUNT (vars s) * physicsDelta s + / 2)
     <= World.yOffset (world (translate s)) <= World.yOffset (world s)) /\
  (Canvas.height (canvas s) * THRESHOLD (vars s) <= Point.y (coords s) ->
   World.yOffset (world s)
     <= World.yOffset (world (translate s))
     <= World.yOffset (world s) + (MOVEAMOUNT (vars s) * physicsDelta s + / 2)).
Proof.
  intros [Hx Hy] Heasing [Hpx Hpy] Hspeed.
  rewrite translate_xOffset, translate_yOffset.
  destruct (translate_horizontal_step s Hx Heasing Hpx Hspeed) as [HL HR].
  destruct (translate_horizontal_frame s)
    as (Fc & Fcv & Fd & Ft & Fm & Fe & _ & _ & Fy & _ & Fh).
  cbv zeta in Fc, Fcv, Fd, Ft, Fm, Fe, Fy, Fh.
  assert (HV := translate_vertical_step (fst (translate_horizontal s))).
  rewrite Fc, Fcv, Fd, Ft, Fm, Fe, Fy, Fh in HV.
  destruct (HV Hy Heasing Hpy Hspeed) as [HU HD].
  split; [exact HL | split; [exact HR | split; [exact HU | exact HD]]].
Qed.

Lemma translate_step_bounded_witness :
  137 - (350 * 1 + / 2) <= World.xOffset (world (translate (linear_page 50 137)))
    <= 137.
Proof.
  apply (translate_step_bounded (linear_page 50 137)).
  - unfold offsets_in_range. sample. lra.
  - sample. exact LINEAR_in_unit.
  - unfold pointer_on_canvas. sample. lra.
  - sample. lra.
  - sample. lra.
Defined.

(** ** At the edge of the world *)






(** ** Offsets stay in range wherever the pointer is *)

Lemma SMOOTH_total_unit : easing_total_unit easings.SMOOTH.
Proof. intro v. apply SMOOTH_in_unit. Qed.

Lemma THRESHOLD_total_unit : easing_total_unit easings.THRESHOLD.
Proof. intro v. unfold easings.THRESHOLD. lra. Qed.

Lemma translate_horizontal_in_range_total (s : Page) :
  0 <= World.xOffset (world s) <= World.width (world s) - Canvas.width (canvas s) ->
  easing_total_unit (easing (vars s)) ->
  whole (World.xOffset (world s)) ->
  whole (World.width (world s) - Canvas.width (canvas s)) ->
  0 <= MOVEAMOUNT (vars s) * physicsDelta s ->
  0 <= World.xOffset (world (fst (translate_horizontal s)))
    <= World.width (world s) - Canvas.width (canvas s).
Proof.
  intros Hrange Heasing Hxo Hmax Hspeed.
  destruct (Rlt_dec (Point.x (coords s))
              (Canvas.width (canvas s) * THRESHOLD (vars s))) as [Hl | Hl].
  - rewrite (translate_horizontal_left s Hl).
    match goal with
    | |- context [Math.round (easing (vars s) ?v * _)] =>
        pose proof (shift_within_room _ _ _ (Heasing v) Hxo (proj1 Hrange) Hspeed)
    end.
    lra.
  - apply Rnot_lt_le in Hl.
    destruct (Rlt_dec (Canvas.width (canvas s) * (1 - THRESHOLD (vars s)))
                (Point.x (coords s))) as [Hr | Hr].
    + rewrite (translate_horizontal_right s Hl Hr).
      assert (Hroom : whole (World.width (world s) - Canvas.width (canvas s)
                             - World.xOffset (world s)))
        by (apply whole_minus; assumption).
      assert (Hroom0 : 0 <= World.width (world s) - Canvas.width (canvas s)
                             - World.xOffset (world s)) by lra.
      match goal with
      | |- context [Math.round (easing (vars s) ?v * _)] =>
          pose proof (shift_within_room _ _ _ (Heasing v) Hroom Hroom0 Hspeed)
      end.
      lra.
    + apply Rnot_lt_le in Hr.
      rewrite (translate_horizontal_none s Hl Hr). exact Hrange.
Qed.

Lemma translate_vertical_in_range_total (s : Page) :
  0 <= World.yOffset (world s) <= World.height (world s) - Canvas.height (canvas s) ->
  easing_total_unit (easing (vars s)) ->
  whole (World.yOffset (world s)) ->
  whole (World.height (world s) - Canvas.height (canvas s)) ->
  0 <= MOVEAMOUNT (vars s) * physicsDelta s ->
  0 <= World.yOffset (world (fst (translate_vertical s)))
    <= World.height (world s) - Canvas.height (canvas s).
Proof.
  intros Hrange Heasing Hyo Hmax Hspeed.
  destruct (Rlt_dec (Point.y (coords s))
              (Canvas.height (canvas s) * THRESHOLD (vars s))) as [Hu | Hu].
  - rewrite (translate_vertical_up s Hu).
    match goal with
    | |- context [Math.round (easing (vars s) ?v * _)] =>
        pose proof (shift_within_room _ _ _ (Heasing v) Hyo (proj1 Hrange) Hspeed)
    end.
    lra.
  - apply Rnot_lt_le in Hu.
    destruct (Rlt_dec (Canvas.height (canvas s) * (1 - THRESHOLD (vars s)))
                (Point.y (coords s))) as [Hd | Hd].
    + rewrite (translate_vertical_down s Hu Hd).
      assert (Hroom : whole (World.height (world s) - Canvas.height (canvas s)
                             - World.yOffset (world s)))
        by (apply whole_minus; assumption).
      assert (Hroom0 : 0 <= World.height (world s) - Canvas.height (canvas s)
                             - World.yOffset (world s)) by lra.
      match goal with
      | |- context [Math.round (easing (vars s) ?v * _)] =>
          pose proof (shift_within_room _ _ _ (Heasing v) Hroom Hroom0 Hspeed)
      end.
      lra.
    + apply Rnot_lt_le in Hd.
      rewrite (translate_vertical_none s Hu Hd). exact Hrange.
Qed.

(** With an easing function whose values all lie in [0,1], as the default
    SMOOTH and THRESHOLD do, one call of [translate] keeps in-range offsets
    in range wherever the pointer is, the sentinel (-9999, -9999) and
    positions off the canvas included.  The offsets and the largest offsets
    are whole numbers, the distance per tick is not negative, and the bands
    have a width. *)
Theorem translate_in_range_any_pointer (s : Page) :
  offsets_in_range s ->
  easing_total_unit (easing (vars s)) ->
  whole (World.xOffset (world s)) ->
  whole (World.yOffset (world s)) ->
  whole (World.width (world s) - Canvas.width (canvas s)) ->
  whole (World.height (world s) - Canvas.height (canvas s)) ->
  0 <= MOVEAMOUNT (vars s) * physicsDelta s ->
  Canvas.width (canvas s) * THRESHOLD (vars s) <> 0 ->
  Canvas.height (canvas s) * THRESHOLD (vars s) <> 0 ->
  offsets_in_range (translate s).
Proof.
  intros [Hx Hy] Heasing Hwx Hwy Hmx Hmy Hspeed _ _.
  unfold offsets_in_range.
  destruct (translate_sizes s) as (Hc & Hw & Hh). rewrite Hc, Hw, Hh.
  rewrite translate_xOffset, translate_yOffset.
  split.
  - apply translate_horizontal_in_range_total; assumption.
  - destruct (translate_horizontal_frame s)
      as (Fc & Fcv & Fd & Ft & Fm & Fe & _ & _ & Fy & _ & Fh).
    cbv zeta in Fc, Fcv, Fd, Ft, Fm, Fe, Fy, Fh.
    rewrite <- Fh, <- Fcv.
    apply translate_vertical_in_range_total;
      rewrite ?Fc, ?Fcv, ?Fd, ?Fm, ?Fe, ?Fy, ?Fh; assumption.
Qed.

Lemma translate_in_range_any_pointer_witness :
  offsets_in_range (translate (loaded sample_canvas (sample_world 500 0) 0.02)).
Proof.
  apply translate_in_range_any_pointer.
  - unfold offsets_in_range. sample. lra.
  - sample. exact SMOOTH_total_unit.
  - exists 500%Z. reflexivity.
  - exists 0%Z. reflexivity.
  - exists 2000%Z. sample. lra.
  - exists 1200%Z. sample. lra.
  - sample. lra.
  - sample. apply Rgt_not_eq. lra.
  - sample. apply Rgt_not_eq. lra.
Defined.

(** ** The hit test and the view *)

Lemma isHovered_ext (obj1 obj2 : Box.t) (s1 s2 : Page) :
  (strictly_inside obj1 s1 <-> strictly_inside obj2 s2) ->
  isHovered obj1 s1 = isHovered obj2 s2.
Proof.
  intro H. apply eq_true_iff_eq. rewrite !isHovered_spec. exact H.
Qed.

(** A rectangle without positive width and height is never hovered,
    wherever the pointer and the view are. *)
Theorem isHovered_empty_box (obj : Box.t) (s : Page) :
  Box.width obj <= 0 \/ Box.height obj <= 0 ->
  isHovered obj s = false.
Proof.
  intro H. rewrite <- not_true_iff_false, isHovered_spec.
  unfold strictly_inside. lra.
Qed.

Lemma isHovered_empty_box_witness :
  isHovered (Box.mk 10 20 0 40) left_edge_page = false.
Proof.
  apply isHovered_empty_box. left. cbn [Box.width]. lra.
Defined.

(** After one call of [translate] the hit test answers for an object what
    it answered before the call for the object moved against the scroll:
    with the pointer at rest, scrolling the view right by [d] is the same as
    moving every object left by [d]. *)
Theorem isHovered_after_translate (obj : Box.t) (s : Page) :
  isHovered obj (translate s) =
  isHovered
    (move_box (World.xOffset (world s) - World.xOffset (world (translate s)))
              (World.yOffset (world s) - World.yOffset (world (translate s)))
              obj) s.
Proof.
  apply isHovered_ext. unfold strictly_inside, move_box.
  cbn [Box.x Box.y Box.width Box.height].
  rewrite (proj1 (translate_frame s)).
  split; intro H; lra.
Qed.

(** ** Reading the position of an event *)

Lemma truthy_zero : JS.truthy (Some 0) = false.
Proof. unfold JS.truthy. apply strict_ne_false_iff. reflexivity. Qed.

Lemma truthy_nonzero (v : R) : v <> 0 -> JS.truthy (Some v) = true.
Proof. intro H. unfold JS.truthy. apply strict_ne_true_iff. exact H. Qed.

Lemma read_mouse_event (ty : string) (px py : R) :
  px <> 0 -> py <> 0 ->
  read_x (mouse_event ty px py) = JS.Normal px /\
  read_y (mouse_event ty px py) = JS.Normal py.
Proof.
  intros Hx Hy. unfold read_x, read_y, mouse_event. cbn [pageX pageY].
  rewrite (truthy_nonzero px Hx), (truthy_nonzero py Hy). split; reflexivity.
Qed.

Lemma read_touch_event (ty : string) (px py : R) :
  read_x (touch_event ty px py) = JS.Normal px /\
  read_y (touch_event ty px py) = JS.Normal py.
Proof. split; reflexivity. Qed.

(** A page coordinate of 0 counts as missing: an event whose [pageX] or
    [pageY] is 0 and which carries no touch point (a mouse event on the left
    or top edge of the page) is discarded by [trackmove], which leaves
    [Mouse.coords] as it was. *)
Theorem trackmove_zero_coordinate (e : DomEvent) (s : Page) (ex : JS.Error) :
  pageX e = Some 0 \/ pageY e = Some 0 ->
  first_touch e = JS.Throw ex ->
  exists s', trackmove e s = JS.Normal s' /\ coords s' = coords s.
Proof.
  intros Hzero Hnone.
  assert (Hread : read_x e = JS.Throw ex \/ read_y e = JS.Throw ex).
  { destruct Hzero as [H | H]; [left; unfold read_x | right; unfold read_y];
      rewrite H, truthy_zero, Hnone; reflexivity. }
  destruct (trackmove_try_throws e s ex Hread) as [ex' Hthrow].
  exists (trackmove_catch s ex'). split.
  - unfold trackmove. rewrite Hthrow. reflexivity.
  - apply trackmove_catch_keeps.
Qed.

Lemma trackmove_zero_coordinate_witness :
  exists s',
    trackmove (mouse_event "mousemove" 0 300) left_edge_page = JS.Normal s' /\
    coords s' = coords left_edge_page.
Proof.
  apply (trackmove_zero_coordinate (mouse_event "mousemove" 0 300) left_edge_page
           (JS.TypeError "e.originalEvent.touches is undefined")).
  - left. reflexivity.
  - reflexivity.
Defined.

(** For an event whose position can be read, [trackmove] stores the
    position relative to the canvas, so that adding the offset of the canvas
    gives the page position back; it calls [preventDefault] once for a
    'touchmove' and not at all otherwise; and it leaves the world, the
    scroller, the rendering context and the bound handlers alone. *)
Theorem trackmove_tracks (e : DomEvent) (s : Page) (x y : R) :
  read_x e = JS.Normal x -> read_y e = JS.Normal y ->
  exists s',
    trackmove e s = JS.Normal s' /\
    Point.x (coords s') + Canvas.left (canvas s) = x /\
    Point.y (coords s') + Canvas.top (canvas s) = y /\
    prevented s' =
      (if String.eqb (type e) "touchmove" then S (prevented s) else prevented s) /\
    world s' = world s /\ vars s' = vars s /\ context s' = context s /\
    bindings s' = bindings s /\ document_events s' = document_events s.
Proof.
  intros Hx Hy. unfold trackmove, trackmove_try. rewrite Hx, Hy.
  cbn [JS.bind JS.try_catch]. eexists. split; [reflexivity |].
  destruct (String.eqb (type e) "touchmove"); fields;
    repeat apply conj; try reflexivity; lra.
Qed.

Lemma trackmove_tracks_witness :
  exists s',
    trackmove (touch_event "touchmove" 0 300) left_edge_page = JS.Normal s' /\
    Point.x (coords s') + Canvas.left (canvas left_edge_page) = 0.
Proof.
  destruct (trackmove_tracks (touch_event "touchmove" 0 300) left_edge_page 0 300)
    as (s' & Hrun & Hx & _); try reflexivity.
  exists s'. split; [exact Hrun | exact Hx].
Defined.

(** Once [trackmove] has read an event at page position [(x, y)], the hit
    test compares that page position with the rectangle of the object
    shifted by the offset of the canvas on the page and by the view. *)
Theorem isHovered_after_trackmove
  (obj : Box.t) (e : DomEvent) (s s' : Page) (x y : R) :
  read_x e = JS.Normal x -> read_y e = JS.Normal y ->
  trackmove e s = JS.Normal s' ->
  (isHovered obj s' = true <->
   Canvas.left (canvas s) + Box.x obj - World.xOffset (world s) < x
     < Canvas.left (canvas s) + Box.x obj - World.xOffset (world s) + Box.width obj /\
   Canvas.top (canvas s) + Box.y obj - World.yOffset (world s) < y
     < Canvas.top (canvas s) + Box.y obj - World.yOffset (world s) + Box.height obj).
Proof.
  intros Hx Hy Hrun.
  destruct (trackmove_tracks e s x y Hx Hy)
    as (s2 & Hrun2 & Hcx & Hcy & _ & Hw & _).
  rewrite Hrun in Hrun2. injection Hrun2 as <-.
  rewrite isHovered_spec. unfold strictly_inside. rewrite Hw.
  split; intro H; lra.
Qed.

Lemma isHovered_after_trackmove_witness :
  exists s',
    trackmove (mouse_event "mousemove" 30 40) left_edge_page = JS.Normal s' /\
    isHovered (Box.mk 510 20 50 40) s' = true.
Proof.
  destruct (read_mouse_event "mousemove" 30 40) as [Hx Hy]; try lra.
  destruct (trackmove_completes (mouse_event "mousemove" 30 40) left_edge_page)
    as [s' Hrun].
  exists s'. split; [exact Hrun |].
  apply (proj2 (isHovered_after_trackmove (Box.mk 510 20 50 40) _ _ _ _ _
                  Hx Hy Hrun)).
  unfold left_edge_page, loaded, sample_canvas, sample_world. fields.
  cbn [Box.x Box.y Box.width Box.height]. lra.
Defined.

(** ** Attaching and detaching the mouse tracker *)

Lemma off_bindings_In (ty : option string) (ns : string) (s : Page) (b : Binding) :
  In b (bindings (off ty ns s)) <->
  In b (bindings s) /\
  ~ (b_namespace b = ns /\
     match ty with Some t => b_type b = t | None => True end).
Proof.
  unfold off. cbn [bindings set_bindings]. rewrite filter_In.
  rewrite negb_true_iff, andb_false_iff.
  destruct ty as [t |].
  - rewrite <- !not_true_iff_false, !String.eqb_eq. tauto.
  - rewrite <- not_true_iff_false, String.eqb_eq.
    split; intros [H1 H2]; split; try assumption.
    + intros [Hn _]. destruct H2 as [H2 | H2]; [tauto | discriminate].
    + left. tauto.
Qed.

(** Leaving the canvas undoes entering it: [hover_out] after [hover_in]
    gives the very state that [hover_out] alone gives.  After [hover_out]
    the handlers still bound are exactly those that were bound and are not
    'mousemove.coords', so the 'touchmove.coords' tracker and the handlers
    of the scroller stay. *)
Theorem hover_out_undoes_hover_in (s : Page) :
  hover_out (hover_in s) = hover_out s /\
  forall b : Binding,
    In b (bindings (hover_out s)) <->
    In b (bindings s) /\
    ~ (b_namespace b = "coords"%string /\ b_type b = "mousemove"%string).
Proof.
  split.
  - unfold hover_out, hover_in, on, off. fields.
    rewrite filter_app. cbn [filter b_namespace b_type].
    replace (String.eqb "coords" "coords") with true by reflexivity.
    replace (String.eqb "mousemove" "mousemove") with true by reflexivity.
    cbn [andb negb]. rewrite app_nil_r. reflexivity.
  - intro b. unfold hover_out. cbn [bindings set_coords].
    apply (off_bindings_In (Some "mousemove"%string) "coords" s b).
Qed.

(** ** Switching the scroller on and off *)

Lemma filter_filter_none {A : Type} (f g : A -> bool) (l : list A) :
  (forall a, g a = true -> f a = false) -> filter f (filter g l) = [].
Proof.
  intro H. induction l as [| a l IH]; [reflexivity |].
  cbn [filter]. destruct (g a) eqn:Hg; [| exact IH].
  cbn [filter]. rewrite (H a Hg). exact IH.
Qed.

Lemma filter_complement {A : Type} (f : A -> bool) (l : list A) :
  filter f l = [] -> filter (fun a => negb (f a)) l = l.
Proof.
  induction l as [| a l IH]; [reflexivity |].
  cbn [filter]. destruct (f a); [discriminate |].
  intro H. cbn [negb]. f_equal. exact (IH H).
Qed.

Lemma disable_translate_handlers (s : Page) : translate_handlers (disable s) = [].
Proof.
  unfold translate_handlers, disable, off. fields.
  apply filter_filter_none. intros b Hb.
  unfold in_translate_namespace.
  rewrite andb_true_r in Hb. apply negb_true_iff in Hb. exact Hb.
Qed.

(** [disable] puts [enabled], [hovered] and [translating] to false and
    unbinds every handler of the namespace 'translate' and no other
    handler.  It does not touch the offsets and announces nothing, not even
    when the view was scrolling.  The next call of [_update] returns at
    once. *)
Theorem disable_resets (s : Page) :
  enabled (vars (disable s)) = false /\
  hovered (vars (disable s)) = false /\
  translating (vars (disable s)) = false /\
  translate_handlers (disable s) = [] /\
  (forall b : Binding,
      In b (bindings (disable s)) <->
      In b (bindings s) /\ b_namespace b <> "translate"%string) /\
  world (disable s) = world s /\
  document_events (disable s) = document_events s /\
  _update (disable s) = JS.Normal (disable s, None).
Proof.
  split; [reflexivity |]. split; [reflexivity |]. split; [reflexivity |].
  split; [apply disable_translate_handlers |].
  split.
  - intro b.
    assert (H := off_bindings_In None "translate" s b).
    unfold disable. fields. rewrite H. tauto.
  - split; [reflexivity |]. split; reflexivity.
Qed.

Lemma enable_bindings (s : Page) :
  enabled (vars s) = false ->
  bindings (enable s) =
  bindings s ++
  [mkBinding "mousemove" "translate" true h_first_move;
   mkBinding "mouseenter" "translate" false h_enter;
   mkBinding "touchstart" "translate" false h_enter;
   mkBinding "mouseleave" "translate" false h_leave;
   mkBinding "touchleave" "translate" false h_leave;
   mkBinding "mousedown" "translate" false (h_press (List.length (cells s)));
   mkBinding "touchstart" "translate" false (h_press (List.length (cells s)));
   mkBinding "mouseup" "translate" false (h_release (List.length (cells s)));
   mkBinding "touchend" "translate" false (h_release (List.length (cells s)))].
Proof.
  intro H. unfold enable. rewrite H. unfold on, one. fields.
  rewrite <- !app_assoc. reflexivity.
Qed.

(** Enabling and then disabling a scroller that was off gives the state
    back: the handlers bound are the ones bound before, the variables of
    the scroller and the world are as before.  Only the [mousedown]
    variable of that call of [enable] remains, unreachable. *)
Theorem disable_after_enable (s : Page) :
  enabled (vars s) = false ->
  hovered (vars s) = false ->
  translating (vars s) = false ->
  translate_handlers s = [] ->
  disable (enable s) = set_cells (cells s ++ [false]) s.
Proof.
  intros He Hh Ht Hb.
  assert (Hbind : bindings (off None "translate" (enable s)) = bindings s).
  { unfold off. cbn [bindings set_bindings].
    rewrite (enable_bindings s He), filter_app.
    cbn [filter b_namespace String.eqb Ascii.eqb Bool.eqb andb negb].
    rewrite app_nil_r.
    rewrite <- (filter_complement in_translate_namespace (bindings s) Hb) at 2.
    apply filter_ext. intro b. unfold in_translate_namespace.
    rewrite andb_true_r. reflexivity. }
  unfold disable. fields.
  assert (Hrest : off None "translate" (enable s) =
                  set_bindings (bindings s) (enable s)).
  { unfold off in *. cbn [bindings set_bindings] in Hbind. rewrite Hbind.
    reflexivity. }
  rewrite Hrest. unfold enable. rewrite He. unfold on, one. fields.
  destruct s as [c w cv ctx d v b cl g de co pr dr an ae].
  destruct v as [T M en ho tr sc ea]. fields. subst. reflexivity.
Qed.

Lemma disable_after_enable_witness :
  disable (enable ready_page) = set_cells [false] ready_page.
Proof.
  apply (disable_after_enable ready_page); reflexivity.
Defined.

Lemma wired_enable (s : Page) : wired s -> wired (enable s).
Proof.
  unfold wired. intro H.
  destruct (enabled (vars s)) eqn:He.
  - rewrite (enable_when_enabled s He), He. exact H.
  - rewrite enable_enabled. unfold translate_handlers in *.
    rewrite (enable_bindings s He), filter_app, length_app, H. reflexivity.
Qed.

Lemma wired_disable (s : Page) : wired (disable s).
Proof. unfold wired. rewrite disable_translate_handlers. reflexivity. Qed.

(** Handlers never pile up: after any sequence of calls of [enable] and
    [disable], in any order and with repetitions, the scroller has exactly
    its nine handlers bound when it is enabled and none when it is not,
    provided that was so at the start. *)
Theorem wired_run_calls (cs : list Call) (s : Page) :
  wired s -> wired (run_calls cs s).
Proof.
  revert s. induction cs as [| c cs IH]; intros s H; [exact H |].
  cbn [run_calls]. apply IH.
  destruct c; cbn [run_call]; [apply wired_enable; exact H | apply wired_disable].
Qed.

Lemma wired_run_calls_witness :
  wired (run_calls [call_enable; call_enable; call_disable; call_enable] ready_page).
Proof.
  apply wired_run_calls. reflexivity.
Defined.

(** ** The press flag of a call of [enable] *)

Lemma assign_last (l : list bool) (old b : bool) :
  assign (List.length l) b (l ++ [old]) = l ++ [b].
Proof.
  induction l as [| c l IH]; [reflexivity |].
  cbn [List.length app assign]. rewrite IH. reflexivity.
Qed.

Lemma assign_length (n : nat) (b : bool) (l : list bool) :
  List.length (assign n b l) = List.length l.
Proof.
  revert n. induction l as [| c l IH]; intros [| n]; cbn [assign List.length];
    try reflexivity.
  rewrite IH. reflexivity.
Qed.

(** The call of [enable] that switches the scroller on binds a press and a
    release handler to a variable of its own: the press handler sets that
    variable and no other, and the release handler puts the state back to
    what [enable] left. *)
Theorem press_release_after_enable (s : Page) :
  enabled (vars s) = false ->
  In (mkBinding "mousedown" "translate" false (h_press (List.length (cells s))))
     (bindings (enable s)) /\
  In (mkBinding "mouseup" "translate" false (h_release (List.length (cells s))))
     (bindings (enable s)) /\
  cells (press (List.length (cells s)) (enable s)) = cells s ++ [true] /\
  release (List.length (cells s)) (press (List.length (cells s)) (enable s))
    = enable s.
Proof.
  intro He.
  assert (Hcells : cells (enable s) = cells s ++ [false]).
  { unfold enable. rewrite He. reflexivity. }
  split; [| split; [| split]].
  - rewrite (enable_bindings s He). apply in_or_app. right.
    cbn [In]. tauto.
  - rewrite (enable_bindings s He). apply in_or_app. right.
    cbn [In]. tauto.
  - unfold press. cbn [cells set_cells]. rewrite Hcells. apply assign_last.
  - unfold release, press. cbn [cells set_cells].
    rewrite Hcells, !assign_last, <- Hcells.
    destruct (enable s). reflexivity.
Qed.

Lemma press_release_after_enable_witness :
  cells (press 0 enabled_page) = [true] /\
  release 0 (press 0 enabled_page) = enabled_page.
Proof.
  destruct (press_release_after_enable ready_page) as (_ & _ & Hp & Hr);
    [reflexivity |].
  split; [exact Hp | exact Hr].
Defined.

(** The press and release handlers have no effect on [_update]: with the
    variables of [enable] set to anything, it ends as it would have ended,
    whether by an exception or with the same result and the same changes to
    the rest of the state. *)
Theorem update_after_press_or_release (cell : nat) (s : Page) :
  _update (press cell s) =
    match _update s with
    | JS.Normal (s', r) => JS.Normal (set_cells (cells (press cell s)) s', r)
    | JS.Throw ex => JS.Throw ex
    end /\
  _update (release cell s) =
    match _update s with
    | JS.Normal (s', r) => JS.Normal (set_cells (cells (release cell s)) s', r)
    | JS.Throw ex => JS.Throw ex
    end.
Proof.
  split; unfold press, release; cbn [cells set_cells];
    apply _update_blind_to_cells.
Qed.

(** ** Leaving the canvas while the scroller is on *)

(** The handler of 'mouseleave.translate' puts [hovered] and [translating]
    to false and triggers 'mousescrolloff' exactly when the view was
    scrolling; it leaves the offsets alone.  Afterwards [_update] returns at
    once, and a second leave changes and announces nothing. *)
Theorem leave_stops_scrolling (s : Page) :
  hovered (vars (leave s)) = false /\
  translating (vars (leave s)) = false /\
  document_events (leave s) =
    (if translating (vars s)
     then "mousescrolloff"%string :: document_events s
     else document_events s) /\
  world (leave s) = world s /\
  _update (leave s) = JS.Normal (leave s, None) /\
  leave (leave s) = leave s.
Proof.
  assert (Hh : hovered (vars (leave s)) = false)
    by (unfold leave; fields; destruct (translating (vars s)); reflexivity).
  assert (Ht : translating (vars (leave s)) = false)
    by (unfold leave; fields; destruct (translating (vars s)) eqn:E;
        fields; [reflexivity | exact E]).
  split; [exact Hh |]. split; [exact Ht |].
  split; [unfold leave; fields; destruct (translating (vars s)); reflexivity |].
  split; [unfold leave; fields; destruct (translating (vars s)); reflexivity |].
  split; [apply _update_not_hovered; exact Hh |].
  unfold leave at 1. fields. rewrite Ht.
  destruct (leave s) as [c w cv ctx d v b cl g de co pr dr an ae].
  destruct v as [T M en ho tr sc ea]. fields. subst. reflexivity.
Qed.

(** ** Forwarding clicks and touches *)

(** The handler of 'mousedown mouseup click touchstart touchend' forwards the
    event to [App.Events] exactly when the animation runs and [App.Events]
    exists.  For a 'touchstart' it first tracks the pointer, also when the
    animation is stopped; for the other events it leaves [Mouse.coords]
    alone.  It never touches the world or the scroller. *)
Theorem delegate_forwards (e : DomEvent) (s : Page) :
  exists s',
    delegate e s = JS.Normal s' /\
    app_events s' =
      (if isAnimating s
       then option_map (cons (type e)) (app_events s)
       else app_events s) /\
    (if String.eqb (type e) "touchstart"
     then exists s1, trackmove e s = JS.Normal s1 /\ coords s' = coords s1
     else coords s' = coords s) /\
    world s' = world s /\ vars s' = vars s /\ bindings s' = bindings s.
Proof.
  assert (Hkeep : forall s1, trackmove e s = JS.Normal s1 ->
            isAnimating s1 = isAnimating s /\ app_events s1 = app_events s /\
            world s1 = world s /\ vars s1 = vars s /\ bindings s1 = bindings s).
  { intros s1. unfold trackmove, trackmove_try, JS.try_catch.
    destruct (read_x e) as [x | ex]; cbn [JS.bind].
    - destruct (read_y e) as [y | ex]; cbn [JS.bind]; intro H;
        injection H as <-.
      + destruct (String.eqb (type e) "touchmove"); repeat split.
      + unfold trackmove_catch. destruct (console s); repeat split.
    - intro H. injection H as <-.
      unfold trackmove_catch. destruct (console s); repeat split. }
  assert (Happ : forall p, app_events (if isAnimating p then app_trigger (type e) p else p)
                 = (if isAnimating p then option_map (cons (type e)) (app_events p)
                    else app_events p) /\
                 coords (if isAnimating p then app_trigger (type e) p else p) = coords p /\
                 world (if isAnimating p then app_trigger (type e) p else p) = world p /\
                 vars (if isAnimating p then app_trigger (type e) p else p) = vars p /\
                 bindings (if isAnimating p then app_trigger (type e) p else p) = bindings p).
  { intro p. unfold app_trigger.
    destruct (isAnimating p); [| repeat split].
    destruct (app_events p) eqn:E; fields; rewrite ?E; repeat split. }
  unfold delegate. destruct (String.eqb (type e) "touchstart").
  - destruct (trackmove_completes e s) as [s1 H1]. rewrite H1. cbn [JS.bind].
    destruct (Hkeep s1 H1) as (Ka & Ke & Kw & Kv & Kb).
    destruct (Happ s1) as (A1 & A2 & A3 & A4 & A5).
    eexists. split; [reflexivity |].
    rewrite A1, A2, A3, A4, A5, Ka, Ke, Kw, Kv, Kb.
    split; [reflexivity |]. split; [exists s1; split; reflexivity |].
    repeat split.
  - cbn [JS.bind]. destruct (Happ s) as (A1 & A2 & A3 & A4 & A5).
    eexists. split; [reflexivity |].
    rewrite A1, A2, A3, A4, A5. repeat split.
Qed.

(** ** A run of ticks *)

Lemma whole_plus (a b : R) : whole a -> whole b -> whole (a + b).
Proof.
  intros [m Hm] [n Hn]. exists (m + n)%Z. rewrite plus_IZR. congruence.
Qed.

Lemma translate_horizontal_whole (s : Page) :
  whole (World.xOffset (world s)) ->
  whole (World.xOffset (world (fst (translate_horizontal s)))).
Proof.
  intro H.
  destruct (Rlt_dec (Point.x (coords s))
              (Canvas.width (canvas s) * THRESHOLD (vars s))) as [Hl | Hl].
  - rewrite (translate_horizontal_left s Hl).
    apply whole_minus; [exact H | apply round_whole].
  - apply Rnot_lt_le in Hl.
    destruct (Rlt_dec (Canvas.width (canvas s) * (1 - THRESHOLD (vars s)))
                (Point.x (coords s))) as [Hr | Hr].
    + rewrite (translate_horizontal_right s Hl Hr).
      apply whole_plus; [exact H | apply round_whole].
    + apply Rnot_lt_le in Hr.
      rewrite (translate_horizontal_none s Hl Hr). exact H.
Qed.

Lemma translate_vertical_whole (s : Page) :
  whole (World.yOffset (world s)) ->
  whole (World.yOffset (world (fst (translate_vertical s)))).
Proof.
  intro H.
  destruct (Rlt_dec (Point.y (coords s))
              (Canvas.height (canvas s) * THRESHOLD (vars s))) as [Hu | Hu].
  - rewrite (translate_vertical_up s Hu).
    apply whole_minus; [exact H | apply round_whole].
  - apply Rnot_lt_le in Hu.
    destruct (Rlt_dec (Canvas.height (canvas s) * (1 - THRESHOLD (vars s)))
                (Point.y (coords s))) as [Hd | Hd].
    + rewrite (translate_vertical_down s Hu Hd).
      apply whole_plus; [exact H | apply round_whole].
    + apply Rnot_lt_le in Hd.
      rewrite (translate_vertical_none s Hu Hd). exact H.
Qed.

(** The settings that [translate] reads are not changed by it. *)
Lemma translate_settings (s : Page) :
  easing (vars (translate s)) = easing (vars s) /\
  MOVEAMOUNT (vars (translate s)) = MOVEAMOUNT (vars s) /\
  THRESHOLD (vars (translate s)) = THRESHOLD (vars s) /\
  physicsDelta (translate s) = physicsDelta s.
Proof.
  unfold translate, translate_run. cbn [fst].
  assert (Hf : forall init p,
             easing (vars (translate_flag init p)) = easing (vars p) /\
             MOVEAMOUNT (vars (translate_flag init p)) = MOVEAMOUNT (vars p) /\
             THRESHOLD (vars (translate_flag init p)) = THRESHOLD (vars p) /\
             physicsDelta (translate_flag init p) = physicsDelta p).
  { intros init p. unfold translate_flag. fields.
    destruct (negb init && _); [| destruct (init && _)]; repeat split. }
  assert (Hv : forall p,
             easing (vars (fst (translate_vertical p))) = easing (vars p) /\
             MOVEAMOUNT (vars (fst (translate_vertical p))) = MOVEAMOUNT (vars p) /\
             THRESHOLD (vars (fst (translate_vertical p))) = THRESHOLD (vars p) /\
             physicsDelta (fst (translate_vertical p)) = physicsDelta p).
  { intro p. unfold translate_vertical.
    destruct (JS.lt _ _); [| destruct (JS.gt _ _)]; repeat split. }
  destruct (Hf (translating (vars s))
              (fst (translate_vertical (fst (translate_horizontal s)))))
    as (F1 & F2 & F3 & F4).
  destruct (Hv (fst (translate_horizontal s))) as (V1 & V2 & V3 & V4).
  destruct (translate_horizontal_frame s)
    as (_ & _ & H4 & H3 & H2 & H1 & _).
  cbv zeta in H1, H2, H3, H4.
  rewrite F1, F2, F3, F4, V1, V2, V3, V4, H1, H2, H3, H4. repeat split.
Qed.

Lemma translate_scroll_invariant (s : Page) :
  scroll_invariant s -> scroll_invariant (translate s).
Proof.
  intros (Hr & He & Hx & Hy & Hmx & Hmy & Hs & Hbw & Hbh).
  destruct (translate_sizes s) as (Hc & Hw & Hh).
  destruct (translate_settings s) as (Se & Sm & St & Sd).
  unfold scroll_invariant.
  rewrite Hc, Hw, Hh, Se, Sm, St, Sd.
  split; [apply translate_in_range_any_pointer; assumption |].
  split; [exact He |].
  split.
  { rewrite translate_xOffset. apply translate_horizontal_whole. exact Hx. }
  split.
  { rewrite translate_yOffset. apply translate_vertical_whole.
    rewrite (proj1 (proj2 (proj2 (proj2 (proj2 (proj2 (proj2 (proj2
               (proj2 (translate_horizontal_frame s)))))))))).
    exact Hy. }
  repeat split; assumption.
Qed.

(** Over any run of ticks, with the pointer anywhere before each of them,
    the view stays inside the world: offsets that start in range and in
    whole pixels are in range after every call of [translate], as long as
    the easing function has its values in [0,1] (the default SMOOTH does),
    the distance per tick is not negative and the bands have a width. *)
Theorem play_keeps_offsets_in_range (pointer : list Point.t) (s : Page) :
  scroll_invariant s ->
  scroll_invariant (play pointer s) /\ offsets_in_range (play pointer s).
Proof.
  revert s. induction pointer as [| p rest IH]; intros s H.
  - split; [exact H | exact (proj1 H)].
  - cbn [play]. apply IH. apply translate_scroll_invariant. exact H.
Qed.

Lemma play_keeps_offsets_in_range_witness :
  offsets_in_range
    (play [Point.mk 0 400; Point.mk (-9999) (-9999); Point.mk 990 790]
          (loaded sample_canvas (sample_world 500 0) 0.02)).
Proof.
  apply play_keeps_offsets_in_range.
  unfold scroll_invariant, offsets_in_range. sample.
  split; [lra |].
  split; [exact SMOOTH_total_unit |].
  split; [exists 500%Z; reflexivity |].
  split; [exists 0%Z; reflexivity |].
  split; [exists 2000%Z; lra |].
  split; [exists 1200%Z; lra |].
  split; [lra |].
  split; apply Rgt_not_eq; lra.
Defined.
